(** * Identity & Compliance API: OTP lifecycle and registration gate

    A shallow embedding of [main.py]: the phone normaliser, the three
    identity endpoints ([start_otp], [verify_otp], [register_identity]),
    the KYC rule engine and the slice of the document store they touch.

    Conventions of the embedding

    - A Python [str] is a list of Unicode code points ([N]).
    - A [datetime] is an integer count of microseconds ([Z]); a
      [timedelta] is a difference of two such counts.
    - Every call of [datetime.now] is an explicit argument of the handler
      that makes it, named after its call site; so is the state of the
      random generator that [random.randint] draws from.
    - A handler is a computation in a state-and-exception monad over the
      global [db] handle; [raise HTTPException] leaves the store as it is
      at that point.
    - The store of the model returns documents exactly as they were
      written.  The database keeps a [datetime] to the millisecond: where
      a statement depends on the value of a stored time, it is worded so
      as to hold also of a time cut to the millisecond. *)

From Stdlib Require Import ZArith NArith List Bool Lia String Ascii.
Import ListNotations.

Set Implicit Arguments.

(* ================================================================== *)
(** ** Python strings *)
(* ================================================================== *)

Module PyStr.

Definition char := N.
Definition str := list char.

(** String literals of the source, written as Rocq strings. *)
Definition lit (s : string) : str :=
  List.map N_of_ascii (list_ascii_of_string s).

Definition char_eqb (a b : char) : bool := N.eqb a b.

(** [==] on [str]. *)
Fixpoint eqb (a b : str) : bool :=
  match a, b with
  | [], [] => true
  | x :: a', y :: b' => char_eqb x y && eqb a' b'
  | _, _ => false
  end.

(** The characters [str.strip()] removes: those for which
    [str.isspace] holds (U+0009..U+000D, U+001C..U+0020, U+0085,
    U+00A0, U+1680, U+2000..U+200A, U+2028, U+2029, U+202F, U+205F,
    U+3000). *)
Definition isspace (c : char) : bool :=
  ((9 <=? c) && (c <=? 13) || (28 <=? c) && (c <=? 32)
   || (c =? 133) || (c =? 160) || (c =? 5760)
   || (8192 <=? c) && (c <=? 8202)
   || (c =? 8232) || (c =? 8233) || (c =? 8239) || (c =? 8287)
   || (c =? 12288))%N.

Fixpoint lstrip (s : str) : str :=
  match s with
  | [] => []
  | c :: s' => if isspace c then lstrip s' else s
  end.

Definition rstrip (s : str) : str := rev (lstrip (rev s)).

(** [s.strip()] *)
Definition strip (s : str) : str := rstrip (lstrip s).

(** [s.replace(old, new)] for a one-character [old]. *)
Definition replace1 (old : char) (new : str) (s : str) : str :=
  flat_map (fun c => if char_eqb c old then new else [c]) s.

(** [s.startswith(p)] *)
Fixpoint startswith (s p : str) : bool :=
  match p, s with
  | [], _ => true
  | x :: p', c :: s' => char_eqb c x && startswith s' p'
  | _ :: _, [] => false
  end.

(** [needle in s] *)
Fixpoint contains (s needle : str) : bool :=
  startswith s needle
  || match s with
     | [] => false
     | _ :: s' => contains s' needle
     end.

(** [s[n:]] *)
Definition slice_from (n : nat) (s : str) : str := skipn n s.

(** Truthiness of a [str]: non-empty. *)
Definition truthy (s : str) : bool :=
  match s with [] => false | _ :: _ => true end.

Definition SPACE : char := 32%N.
Definition PLUS : char := 43%N.

End PyStr.

Import PyStr.

(* ================================================================== *)
(** ** [normalize_phone] *)
(* ================================================================== *)

Definition normalize_phone (msisdn : str) : str :=
  let msisdn := replace1 SPACE (lit "") (strip msisdn) in
  if negb (startswith msisdn (lit "+")) then
    if startswith msisdn (lit "00") then
      lit "+" ++ slice_from 2 msisdn
    else msisdn
  else msisdn.

(* ================================================================== *)
(** ** Integers, time and case mapping *)
(* ================================================================== *)

Definition digit_char (d : Z) : char := (48 + Z.to_N d)%N.

(** Decimal digits of a non-negative integer, most significant first. *)
Fixpoint digits_fuel (fuel : nat) (n : Z) (acc : str) : str :=
  match fuel with
  | O => acc
  | S fuel' =>
      let acc' := digit_char (n mod 10) :: acc in
      if (n <? 10)%Z then acc' else digits_fuel fuel' (n / 10) acc'
  end.

Definition digits (n : Z) : str :=
  digits_fuel (S (Z.to_nat (Z.log2 n))) n [].

(** [f"{n}"] for an [int]. *)
Definition format_int (n : Z) : str :=
  if (n <? 0)%Z then lit "-" ++ digits (- n) else digits n.



Definition datetime := Z.
Definition timedelta := Z.
Bind Scope Z_scope with datetime timedelta.

Definition microseconds_per_second : Z := 1000000.

(** [timedelta(seconds=s)] and [timedelta(minutes=m)] *)
Definition timedelta_seconds (s : Z) : timedelta :=
  (s * microseconds_per_second)%Z.
Definition timedelta_minutes (m : Z) : timedelta :=
  timedelta_seconds (m * 60).

(** [str.upper] and [str.lower] follow the Unicode character database,
    which is no part of the program: the development is generic in them. *)
Class UnicodeCase := {
  upper : str -> str;
  lower : str -> str
}.

(** The case mapping restricted to the ASCII letters, to run examples. *)
Definition ascii_upper_char (c : char) : char :=
  if ((97 <=? c) && (c <=? 122))%N then (c - 32)%N else c.
Definition ascii_lower_char (c : char) : char :=
  if ((65 <=? c) && (c <=? 90))%N then (c + 32)%N else c.

Definition AsciiCase : UnicodeCase :=
  {| upper := List.map ascii_upper_char;
     lower := List.map ascii_lower_char |}.

(* ================================================================== *)
(** ** Requests, responses and errors *)
(* ================================================================== *)

Record StartOtpRequest := { start_phone : str }.

Record VerifyOtpRequest := { verify_phone : str; verify_code : str }.

Record RegisterIdentityRequest := {
  reg_phone : str;
  reg_name : str;
  reg_email : str;
  reg_country : option str;
  reg_faith_affirmation : bool
}.

(** The [detail] of an [HTTPException]: a message, or the dictionary
    [{"message": ..., "flags": ...}] of a failed KYC check. *)
Inductive Detail :=
| Message (m : str)
| MessageFlags (m : str) (flags : list str).

Record HTTPException := {
  status_code : Z;
  detail : Detail
}.

Record StartOtpResponse := {
  start_status : str;
  start_resp_phone : str;
  expires_in_sec : Z;
  debug_code : str
}.

Record StatusResponse := {
  status : str;
  resp_phone : str
}.

(** The failures of the spec's taxonomy, as the source raises them. *)
Definition StoreUnavailable : HTTPException :=
  {| status_code := 500; detail := Message (lit "Database not available") |}.
Definition NotFound : HTTPException :=
  {| status_code := 404; detail := Message (lit "No OTP session found") |}.
Definition Expired : HTTPException :=
  {| status_code := 400; detail := Message (lit "OTP expired") |}.
Definition InvalidCode : HTTPException :=
  {| status_code := 400; detail := Message (lit "Invalid code") |}.
Definition PhoneNotVerified : HTTPException :=
  {| status_code := 400;
     detail := Message (lit "Phone not verified via OTP") |}.
Definition AffirmationRequired : HTTPException :=
  {| status_code := 400;
     detail := Message (lit "Faith affirmation is required") |}.
Definition ComplianceRejected (flags : list str) : HTTPException :=
  {| status_code := 400;
     detail := MessageFlags (lit "KYC checks failed") flags |}.

(* ================================================================== *)
(** ** The document store *)
(* ================================================================== *)

Definition ObjectId := nat.

(** The models of [schemas.py], with the fields the handlers pass. *)
Record OtpSession := {
  phone : str;
  code : str;
  expires_at : datetime;
  verified : bool
}.

Record Identity := {
  identity_phone : str;
  name : str;
  email : str;
  country : option str;
  faith_affirmation : bool
}.

(** A stored document of the [otpsession] collection.  The fields the
    handlers read with [rec.get] may be missing from a document. *)
Record OtpSessionDoc := {
  otp_id : ObjectId;
  otp_phone : str;
  otp_code : option str;
  otp_expires_at : option datetime;
  otp_verified : option bool;
  otp_created_at : datetime;
  otp_updated_at : option datetime
}.

(** A stored document of the [identity] collection. *)
Record IdentityDoc := {
  id_id : ObjectId;
  id_phone : str;
  id_name : str;
  id_email : str;
  id_country : option str;
  id_faith_affirmation : bool;
  id_created_at : datetime;
  id_updated_at : option datetime
}.

(** Collections keep their documents in insertion order. *)
Record Store := {
  otpsession : list OtpSessionDoc;
  identity : list IdentityDoc;
  next_oid : ObjectId
}.

Definition empty_store : Store :=
  {| otpsession := []; identity := []; next_oid := O |}.

(** *** Handlers: state over the store, exceptions on top *)

Definition M (A : Type) : Type := Store -> Store * (HTTPException + A).

Definition ret {A} (a : A) : M A := fun st => (st, inr a).

Definition bind {A B} (m : M A) (k : A -> M B) : M B :=
  fun st =>
    match m st with
    | (st', inl e) => (st', inl e)
    | (st', inr a) => k a st'
    end.

Definition raise {A} (e : HTTPException) : M A := fun st => (st, inl e).

Definition gets {A} (f : Store -> A) : M A := fun st => (st, inr (f st)).

Definition modify (f : Store -> Store) : M unit := fun st => (f st, inr tt).

Declare Scope handler_scope.
Delimit Scope handler_scope with handler.
Notation "x <- m ;; k" := (bind m (fun x => k))
  (at level 61, m at next level, right associativity) : handler_scope.
Notation "m ;;; k" := (bind m (fun _ => k))
  (at level 61, right associativity) : handler_scope.

(** [if db is None: raise HTTPException(status_code=500, ...)], then the
    rest of the handler on the store [db] stands for. *)
Definition require_db {A} (db : option Store) (body : M A)
  : option Store * (HTTPException + A) :=
  match db with
  | None => (None, inl StoreUnavailable)
  | Some st => let (st', r) := body st in (Some st', r)
  end.

(** *** Queries of the driver *)

(** [find(filter)] *)
Definition find {D} (matches : D -> bool) (c : list D) : list D :=
  filter matches c.

(** [find_one(filter)]: the first match in insertion order. *)
Definition find_one {D} (matches : D -> bool) (c : list D) : option D :=
  List.find matches c.

(** [sort(key, -1)]: descending on the key; documents with equal keys
    stay in insertion order. *)
Fixpoint insert_desc {D} (key : D -> Z) (d : D) (l : list D) : list D :=
  match l with
  | [] => [d]
  | x :: l' =>
      if (key x <=? key d)%Z then d :: l else x :: insert_desc key d l'
  end.

Fixpoint sort_desc {D} (key : D -> Z) (l : list D) : list D :=
  match l with
  | [] => []
  | d :: l' => insert_desc key d (sort_desc key l')
  end.

(** [limit(n)] *)
Definition limit {D} (n : nat) (l : list D) : list D := firstn n l.

(** [next(cursor, None)] *)
Definition next_or_none {D} (l : list D) : option D :=
  match l with
  | [] => None
  | d :: _ => Some d
  end.

(** [update_one(filter, {"$set": ...})]: the first match is rewritten. *)
Fixpoint update_one {D} (matches : D -> bool) (set : D -> D) (c : list D)
  : list D :=
  match c with
  | [] => []
  | d :: c' =>
      if matches d then set d :: c' else d :: update_one matches set c'
  end.

Definition set_otpsession (c : list OtpSessionDoc) (st : Store) : Store :=
  {| otpsession := c; identity := identity st; next_oid := next_oid st |}.

Definition set_identity (c : list IdentityDoc) (st : Store) : Store :=
  {| otpsession := otpsession st; identity := c; next_oid := next_oid st |}.

(** A named collection together with how a model becomes a document. *)
Record Collection (Model Doc : Type) := {
  coll_docs : Store -> list Doc;
  coll_put : list Doc -> Store -> Store;
  to_document : ObjectId -> datetime -> Model -> Doc
}.

Definition coll_otpsession : Collection OtpSession OtpSessionDoc :=
  {| coll_docs := otpsession;
     coll_put := set_otpsession;
     to_document := fun oid created s =>
       {| otp_id := oid;
          otp_phone := phone s;
          otp_code := Some (code s);
          otp_expires_at := Some (expires_at s);
          otp_verified := Some (verified s);
          otp_created_at := created;
          otp_updated_at := None |} |}.

Definition coll_identity : Collection Identity IdentityDoc :=
  {| coll_docs := identity;
     coll_put := set_identity;
     to_document := fun oid created i =>
       {| id_id := oid;
          id_phone := identity_phone i;
          id_name := name i;
          id_email := email i;
          id_country := country i;
          id_faith_affirmation := faith_affirmation i;
          id_created_at := created;
          id_updated_at := None |} |}.

(** Modelled from the spec: [create_document] of [database.py], which is
    not among the sources.  The spec gives the store an
    [insert(doc) -> generatedId] that always adds a document, and has
    [createdAt] set at creation ("set implicitly"), while [updatedAt] is
    set by later writes.  [now] is the clock at the insertion. *)
Definition create_document {Model Doc} (c : Collection Model Doc)
    (data : Model) (now : datetime) : M ObjectId :=
  fun st =>
    let oid := next_oid st in
    let st' := coll_put c (coll_docs c st ++ [to_document c oid now data]) st in
    ({| otpsession := otpsession st';
        identity := identity st';
        next_oid := S oid |}, inr oid).

(* ================================================================== *)
(** ** The handlers of [main.py] *)
(* ================================================================== *)

Open Scope handler_scope.

Definition get_latest_otp (phone : str) : M (option OtpSessionDoc) :=
  gets (fun db =>
    let records :=
      limit 1 (sort_desc otp_created_at
                 (find (fun d => PyStr.eqb (otp_phone d) phone)
                       (otpsession db))) in
    next_or_none records).

(** [random.randint(a, b)]: an integer of the range from [a] to [b],
    both included, decided by the state [rng] of the generator.  A state
    that is itself a number of the range draws that number, so every
    number of the range can be drawn. *)
Definition random_randint (a b : Z) (rng : Z) : Z :=
  (a + (rng - a) mod (b - a + 1))%Z.

(** [now] is the clock read for [expires_at]; [now_insert] the clock at
    the insertion; [rng] the state of the random generator. *)
Definition start_otp (db : option Store) (payload : StartOtpRequest)
    (rng : Z) (now now_insert : datetime)
  : option Store * (HTTPException + StartOtpResponse) :=
  require_db db (
    let phone := normalize_phone (start_phone payload) in
    let code := format_int (random_randint 100000 999999 rng) in
    let expires_at := (now + timedelta_minutes 5)%Z in
    let session :=
      {| phone := phone; code := code; expires_at := expires_at;
         verified := false |} in
    create_document coll_otpsession session now_insert ;;;
    ret {| start_status := lit "OTP_SENT";
           start_resp_phone := phone;
           expires_in_sec := 300;
           debug_code := code |}).

(** [rec.get("expires_at", now)] *)
Definition get_expires_at (rec : OtpSessionDoc) (default : datetime)
  : datetime :=
  match otp_expires_at rec with
  | Some e => e
  | None => default
  end.

(** [payload.code != rec.get("code")] *)
Definition code_differs (supplied : str) (rec : OtpSessionDoc) : bool :=
  match otp_code rec with
  | Some c => negb (PyStr.eqb supplied c)
  | None => true
  end.

(** [{"$set": {"verified": True, "updated_at": ...}}] *)
Definition set_verified (updated_at : datetime) (d : OtpSessionDoc)
  : OtpSessionDoc :=
  {| otp_id := otp_id d;
     otp_phone := otp_phone d;
     otp_code := otp_code d;
     otp_expires_at := otp_expires_at d;
     otp_verified := Some true;
     otp_created_at := otp_created_at d;
     otp_updated_at := Some updated_at |}.

(** [now] is the clock read for the expiry test, [now_update] the one
    written to [updated_at]. *)
Definition verify_otp (db : option Store) (payload : VerifyOtpRequest)
    (now now_update : datetime)
  : option Store * (HTTPException + StatusResponse) :=
  require_db db (
    let phone := normalize_phone (verify_phone payload) in
    rec <- get_latest_otp phone ;;
    match rec with
    | None => raise NotFound
    | Some rec =>
        if (now >? get_expires_at rec now)%Z then raise Expired
        else if code_differs (verify_code payload) rec then raise InvalidCode
        else
          modify (fun db =>
            set_otpsession
              (update_one (fun d => Nat.eqb (otp_id d) (otp_id rec))
                          (set_verified now_update) (otpsession db)) db) ;;;
          ret {| status := lit "VERIFIED"; resp_phone := phone |}
    end).

Record KycResult := {
  pass : bool;
  flags : list str
}.

Definition allowed_countries : list str :=
  [lit "CI"; lit "SN"; lit "BJ"; lit "TG"; lit "CM"; lit "GA"; lit "CG";
   lit "CD"].

(** [x in {...}] *)
Definition member (x : str) (l : list str) : bool :=
  existsb (PyStr.eqb x) l.

(** [not rec.get("verified")] *)
Definition not_verified (rec : OtpSessionDoc) : bool :=
  match otp_verified rec with
  | Some true => false
  | _ => true
  end.

(** [{"$set": {"name": ..., "email": ..., "country": ...,
    "faith_affirmation": ..., "updated_at": ...}}] *)
Definition set_profile (payload : RegisterIdentityRequest)
    (updated_at : datetime) (d : IdentityDoc) : IdentityDoc :=
  {| id_id := id_id d;
     id_phone := id_phone d;
     id_name := reg_name payload;
     id_email := reg_email payload;
     id_country := reg_country payload;
     id_faith_affirmation := reg_faith_affirmation payload;
     id_created_at := id_created_at d;
     id_updated_at := Some updated_at |}.

Section Handlers.

Context {unicode : UnicodeCase}.

Definition kyc_rule_engine (country : option str) (name : str)
    (email : str) : KycResult :=
  let flags := [] in
  let flags :=
    match country with
    | Some c =>
        if truthy c && negb (member (upper c) allowed_countries)
        then flags ++ [lit "COUNTRY_UNSUPPORTED"]
        else flags
    | None => flags
    end in
  let flags :=
    if existsb (fun bad => contains (lower name) bad)
               [lit "test"; lit "fake"; lit "demo"]
    then flags ++ [lit "SUSPECT_NAME"]
    else flags in
  {| pass := Nat.eqb (List.length flags) 0; flags := flags |}.

(** [now_update] is the clock written to [updated_at] when the identity
    exists; [now_insert] the clock at the insertion when it does not. *)
Definition register_identity (db : option Store)
    (payload : RegisterIdentityRequest) (now_update now_insert : datetime)
  : option Store * (HTTPException + StatusResponse) :=
  require_db db (
    let phone := normalize_phone (reg_phone payload) in
    rec <- get_latest_otp phone ;;
    if match rec with
       | None => true
       | Some rec => not_verified rec
       end
    then raise PhoneNotVerified
    else if negb (reg_faith_affirmation payload)
    then raise AffirmationRequired
    else
      let kyc := kyc_rule_engine (reg_country payload) (reg_name payload)
                                 (reg_email payload) in
      if negb (pass kyc) then raise (ComplianceRejected (flags kyc))
      else
        existing <- gets (fun db =>
          find_one (fun d => PyStr.eqb (id_phone d) phone) (identity db)) ;;
        match existing with
        | Some existing =>
            modify (fun db =>
              set_identity
                (update_one (fun d => Nat.eqb (id_id d) (id_id existing))
                            (set_profile payload now_update)
                            (identity db)) db) ;;;
            ret {| status := lit "UPDATED"; resp_phone := phone |}
        | None =>
            let identity :=
              {| identity_phone := phone;
                 name := reg_name payload;
                 email := reg_email payload;
                 country := reg_country payload;
                 faith_affirmation := reg_faith_affirmation payload |} in
            create_document coll_identity identity now_insert ;;;
            ret {| status := lit "CREATED"; resp_phone := phone |}
        end).

End Handlers.

(** *** [get_identity] *)

(** An identity as [find_one(filter, {"_id": 0})] returns it: every field
    but [_id]. *)
Record IdentityView := {
  view_phone : str;
  view_name : str;
  view_email : str;
  view_country : option str;
  view_faith_affirmation : bool;
  view_created_at : datetime;
  view_updated_at : option datetime
}.

Definition without_id (d : IdentityDoc) : IdentityView :=
  {| view_phone := id_phone d;
     view_name := id_name d;
     view_email := id_email d;
     view_country := id_country d;
     view_faith_affirmation := id_faith_affirmation d;
     view_created_at := id_created_at d;
     view_updated_at := id_updated_at d |}.

Definition IdentityNotFound : HTTPException :=
  {| status_code := 404; detail := Message (lit "Identity not found") |}.

Definition get_identity (db : option Store) (phone : str)
  : option Store * (HTTPException + IdentityView) :=
  require_db db (
    let phone := normalize_phone phone in
    doc <- gets (fun db =>
      option_map without_id
        (find_one (fun d => PyStr.eqb (id_phone d) phone) (identity db))) ;;
    match doc with
    | None => raise IdentityNotFound
    | Some doc => ret doc
    end).

Close Scope handler_scope.

(** *** [test_database] *)

(** What [test_database] observes of the handle [db]: its attribute
    [name], which may be missing ([hasattr] is false), hold a value, or
    raise when read; and [list_collection_names()], which returns the
    names or raises an exception with a message. *)
Inductive Attr :=
| AttrMissing
| AttrValue (v : str)
| AttrRaises (e : str).

Record DbProbe := {
  probe_name : Attr;
  probe_list_collection_names : str + list str
}.

(** The dictionary [response]. *)
Record TestResponse := {
  backend : str;
  database : str;
  database_url : option str;
  database_name : option str;
  connection_status : str;
  collections : list str
}.

Definition set_database (v : str) (r : TestResponse) : TestResponse :=
  {| backend := backend r; database := v; database_url := database_url r;
     database_name := database_name r;
     connection_status := connection_status r;
     collections := collections r |}.

Definition set_database_url (v : option str) (r : TestResponse)
  : TestResponse :=
  {| backend := backend r; database := database r; database_url := v;
     database_name := database_name r;
     connection_status := connection_status r;
     collections := collections r |}.

Definition set_database_name (v : option str) (r : TestResponse)
  : TestResponse :=
  {| backend := backend r; database := database r;
     database_url := database_url r; database_name := v;
     connection_status := connection_status r;
     collections := collections r |}.

Definition set_connection_status (v : str) (r : TestResponse)
  : TestResponse :=
  {| backend := backend r; database := database r;
     database_url := database_url r; database_name := database_name r;
     connection_status := v; collections := collections r |}.

Definition set_collections (v : list str) (r : TestResponse)
  : TestResponse :=
  {| backend := backend r; database := database r;
     database_url := database_url r; database_name := database_name r;
     connection_status := connection_status r; collections := v |}.

(** U+2705, U+274C and U+26A0 U+FE0F. *)
Definition CHECK_MARK : str := [9989%N].
Definition CROSS_MARK : str := [10060%N].
Definition WARNING_SIGN : str := [9888%N; 65039%N].

(** Truthiness of [os.getenv(...)]: set and not empty. *)
Definition env_truthy (v : option str) : bool :=
  match v with
  | Some s => truthy s
  | None => false
  end.

(** [getenv] is [os.getenv]. *)
Definition test_database (db : option DbProbe) (getenv : str -> option str)
  : TestResponse :=
  let response :=
    {| backend := CHECK_MARK ++ lit " Running";
       database := CROSS_MARK ++ lit " Not Available";
       database_url := None;
       database_name := None;
       connection_status := lit "Not Connected";
       collections := [] |} in
  let response :=
    match db with
    | Some db =>
        let response :=
          set_database (CHECK_MARK ++ lit " Available") response in
        let response :=
          set_database_url (Some (CHECK_MARK ++ lit " Configured"))
                           response in
        match probe_name db with
        | AttrRaises e =>
            set_database (CROSS_MARK ++ lit " Error: " ++ firstn 50 e)
                         response
        | name =>
            let response :=
              set_database_name
                (Some match name with
                      | AttrValue v => v
                      | _ => CHECK_MARK ++ lit " Connected"
                      end) response in
            let response :=
              set_connection_status (lit "Connected") response in
            match probe_list_collection_names db with
            | inr names =>
                let response :=
                  set_collections (firstn 10 names) response in
                set_database (CHECK_MARK ++ lit " Connected & Working")
                             response
            | inl e =>
                set_database
                  (WARNING_SIGN ++ lit "  Connected but Error: "
                   ++ firstn 50 e) response
            end
        end
    | None =>
        set_database (WARNING_SIGN ++ lit "  Available but not initialized")
                     response
    end in
  let response :=
    set_database_url
      (Some (if env_truthy (getenv (lit "DATABASE_URL"))
             then CHECK_MARK ++ lit " Set"
             else CROSS_MARK ++ lit " Not Set")) response in
  let response :=
    set_database_name
      (Some (if env_truthy (getenv (lit "DATABASE_NAME"))
             then CHECK_MARK ++ lit " Set"
             else CROSS_MARK ++ lit " Not Set")) response in
  response.

(* ================================================================== *)
(** ** Vocabulary of the statements *)
(* ================================================================== *)

(** No whitespace at the front. *)
Definition no_leading_space (s : str) : bool :=
  match s with
  | [] => true
  | c :: _ => negb (isspace c)
  end.

(** No whitespace at either end: what [strip] leaves alone. *)
Definition trimmed (s : str) : bool :=
  no_leading_space s && no_leading_space (rev s).

(** No space character anywhere. *)
Definition spaceless (s : str) : bool :=
  forallb (fun c => negb (char_eqb c SPACE)) s.

(** What [normalize_phone] works on after the clean-up of its first
    line. *)
Definition cleaned (s : str) : str := replace1 SPACE (lit "") (strip s).

(** The session [get_latest_otp] returns on a store. *)
Definition latest_session (phone : str) (st : Store)
  : option OtpSessionDoc :=
  match get_latest_otp phone st with
  | (_, inr rec) => rec
  | (_, inl _) => None
  end.

(** The documents of a phone. *)
Definition sessions_of (phone : str) (st : Store) : list OtpSessionDoc :=
  filter (fun d => PyStr.eqb (otp_phone d) phone) (otpsession st).

Definition identities_of (phone : str) (st : Store) : list IdentityDoc :=
  filter (fun d => PyStr.eqb (id_phone d) phone) (identity st).

(** What the database guarantees of its identifiers: [_id] is unique
    within a collection, and a generated one is fresh. *)
Record wf (st : Store) : Prop := {
  wf_otp_unique : NoDup (List.map otp_id (otpsession st));
  wf_id_unique : NoDup (List.map id_id (identity st));
  wf_otp_fresh :
    Forall (fun d => (otp_id d < next_oid st)%nat) (otpsession st);
  wf_id_fresh :
    Forall (fun d => (id_id d < next_oid st)%nat) (identity st)
}.

(** [update_one] by [_id], seen as a map over the collection. *)
Definition update_by_id {D} (id : D -> ObjectId) (oid : ObjectId)
    (set : D -> D) (c : list D) : list D :=
  List.map (fun d => if Nat.eqb (id d) oid then set d else d) c.

(** A session with another expiry, or none. *)
Definition set_expires_at (e : option datetime) (d : OtpSessionDoc)
  : OtpSessionDoc :=
  {| otp_id := otp_id d;
     otp_phone := otp_phone d;
     otp_code := otp_code d;
     otp_expires_at := e;
     otp_verified := otp_verified d;
     otp_created_at := otp_created_at d;
     otp_updated_at := otp_updated_at d |}.

(** The store with the expiry of every session replaced. *)
Definition with_expiry (e : OtpSessionDoc -> option datetime) (st : Store)
  : Store :=
  set_otpsession (List.map (fun d => set_expires_at (e d) d) (otpsession st))
                 st.

(** The latest session of the phone exists and is verified. *)
Definition phone_verified (phone : str) (st : Store) : Prop :=
  exists rec, latest_session phone st = Some rec
              /\ otp_verified rec = Some true.

(** The document [register_identity] inserts. *)
Definition new_identity (oid : ObjectId) (phone : str)
    (payload : RegisterIdentityRequest) (created_at : datetime)
  : IdentityDoc :=
  {| id_id := oid;
     id_phone := phone;
     id_name := reg_name payload;
     id_email := reg_email payload;
     id_country := reg_country payload;
     id_faith_affirmation := reg_faith_affirmation payload;
     id_created_at := created_at;
     id_updated_at := None |}.

Definition insert_identity (d : IdentityDoc) (st : Store) : Store :=
  {| otpsession := otpsession st;
     identity := identity st ++ [d];
     next_oid := S (next_oid st) |}.

Definition CREATED (phone : str) : StatusResponse :=
  {| status := lit "CREATED"; resp_phone := phone |}.
Definition UPDATED (phone : str) : StatusResponse :=
  {| status := lit "UPDATED"; resp_phone := phone |}.

(** The stores the three endpoints can produce from the empty one. *)
Section Reachable.

Context {unicode : UnicodeCase}.

Inductive reachable : Store -> Prop :=
| reachable_empty : reachable empty_store
| reachable_start st st' payload randint now now_insert :
    reachable st ->
    fst (start_otp (Some st) payload randint now now_insert) = Some st' ->
    reachable st'
| reachable_verify st st' payload now now_update :
    reachable st ->
    fst (verify_otp (Some st) payload now now_update) = Some st' ->
    reachable st'
| reachable_register st st' payload now_update now_insert :
    reachable st ->
    fst (register_identity (Some st) payload now_update now_insert)
    = Some st' ->
    reachable st'.

End Reachable.

(** The first document of a cursor dominates the others. *)
Definition head_is_max {D} (key : D -> Z) (l : list D) : Prop :=
  match l with
  | [] => True
  | x :: _ => forall y, In y l -> (key y <= key x)%Z
  end.

(** One call of an endpoint that writes, on an available store. *)
Section Steps.

Context {unicode : UnicodeCase}.

Inductive step : Store -> Store -> Prop :=
| step_start st st' payload randint now now_insert :
    fst (start_otp (Some st) payload randint now now_insert) = Some st' ->
    step st st'
| step_verify st st' payload now now_update :
    fst (verify_otp (Some st) payload now now_update) = Some st' ->
    step st st'
| step_register st st' payload now_update now_insert :
    fst (register_identity (Some st) payload now_update now_insert)
    = Some st' ->
    step st st'.

(** What a stored identity went through when it was written. *)
Definition admitted (d : IdentityDoc) : Prop :=
  id_faith_affirmation d = true
  /\ pass (kyc_rule_engine (id_country d) (id_name d) (id_email d)) = true
  /\ normalize_phone (id_phone d) = id_phone d.

End Steps.

(** The store [start_otp] leaves. *)
Definition started_store (st : Store) (phone : str) (randint : Z)
    (now now_insert : datetime) : Store :=
  {| otpsession :=
       otpsession st ++
       [{| otp_id := next_oid st;
           otp_phone := phone;
           otp_code := Some (format_int (random_randint 100000 999999 randint));
           otp_expires_at := Some (now + timedelta_minutes 5)%Z;
           otp_verified := Some false;
           otp_created_at := now_insert;
           otp_updated_at := None |}];
     identity := identity st;
     next_oid := S (next_oid st) |}.

(** The precision of a stored [datetime]. *)
Definition one_millisecond : timedelta := 1000.

(** Only whitespace, or nothing. *)
Definition blank (s : str) : bool := forallb isspace s.

(** Every session of the phone was created before [t]. *)
Definition created_before (t : datetime) (phone : str) (st : Store) : Prop :=
  Forall (fun s => (otp_created_at s < t)%Z) (sessions_of phone st).

(** A session of the store carries every field the handlers read with
    [rec.get], and a normalised phone. *)
Definition complete_session (s : OtpSessionDoc) : Prop :=
  normalize_phone (otp_phone s) = otp_phone s
  /\ otp_code s <> None
  /\ otp_expires_at s <> None
  /\ otp_verified s <> None.

(** [s'] is [s] later on: the same session, verified if [s] was. *)
Definition session_evolves (s s' : OtpSessionDoc) : Prop :=
  otp_id s' = otp_id s
  /\ otp_phone s' = otp_phone s
  /\ otp_code s' = otp_code s
  /\ otp_expires_at s' = otp_expires_at s
  /\ otp_created_at s' = otp_created_at s
  /\ (otp_verified s = Some true -> otp_verified s' = Some true).

(** The status code of a failure, [None] on success. *)
Definition failure_status {A} (r : HTTPException + A) : option Z :=
  match r with
  | inl e => Some (status_code e)
  | inr _ => None
  end.

(* ================================================================== *)
(** ** Example data *)
(* ================================================================== *)

Module Demo.

Open Scope Z_scope.

Definition phone : str := lit "+2250700000001".

(** The session of the spec's example: started at time 0, code
    "482913", five minutes to live. *)
Definition session (verified : bool) (updated_at : option datetime)
  : OtpSessionDoc :=
  {| otp_id := 0%nat;
     otp_phone := phone;
     otp_code := Some (lit "482913");
     otp_expires_at := Some 300000000;
     otp_verified := Some verified;
     otp_created_at := 0;
     otp_updated_at := updated_at |}.

Definition started : Store :=
  {| otpsession := [session false None]; identity := [];
     next_oid := 1%nat |}.

(** Verified one minute after the start. *)
Definition verified : Store :=
  {| otpsession := [session true (Some 60000000)]; identity := [];
     next_oid := 1%nat |}.

Definition good_code : VerifyOtpRequest :=
  {| verify_phone := lit " +225 07 00 00 00 01"; verify_code := lit "482913" |}.

Definition wrong_code : VerifyOtpRequest :=
  {| verify_phone := phone; verify_code := lit "000000" |}.

Definition registration (name : string) (country : option str)
    (faith_affirmation : bool) : RegisterIdentityRequest :=
  {| reg_phone := phone;
     reg_name := lit name;
     reg_email := lit "a@x.com";
     reg_country := country;
     reg_faith_affirmation := faith_affirmation |}.

(** The identity the first registration of "Aicha Kone" leaves. *)
Definition registered_doc (name : string) (updated_at : option datetime)
  : IdentityDoc :=
  {| id_id := 1%nat;
     id_phone := phone;
     id_name := lit name;
     id_email := lit "a@x.com";
     id_country := Some (lit "CI");
     id_faith_affirmation := true;
     id_created_at := 120000000;
     id_updated_at := updated_at |}.

Definition registered : Store :=
  {| otpsession := [session true (Some 60000000)];
     identity := [registered_doc "Aicha Kone" None];
     next_oid := 2%nat |}.

End Demo.

(* ================================================================== *)
(** ** Facts about strings *)
(* ================================================================== *)

Module PyStrFacts.

Lemma eqb_spec (a b : str) : reflect (a = b) (PyStr.eqb a b).
Proof.
  revert b; induction a as [|x a IH]; intros [|y b]; simpl;
    try (constructor; congruence).
  unfold char_eqb.
  destruct (N.eqb_spec x y) as [->|Hn]; simpl.
  - destruct (IH b) as [->|Hn]; constructor; congruence.
  - constructor; congruence.
Qed.

Lemma eqb_eq (a b : str) : PyStr.eqb a b = true <-> a = b.
Proof. destruct (eqb_spec a b); split; congruence. Qed.

Lemma eqb_refl (a : str) : PyStr.eqb a a = true.
Proof. now apply eqb_eq. Qed.

Lemma eqb_neq (a b : str) : PyStr.eqb a b = false <-> a <> b.
Proof. destruct (eqb_spec a b); split; congruence. Qed.

(** [startswith] is the prefix relation. *)
Lemma startswith_spec (s p : str) :
  startswith s p = true <-> exists post, s = p ++ post.
Proof.
  revert s; induction p as [|x p IH]; intros s; simpl.
  - split; [eauto | now destruct s].
  - destruct s as [|c s]; simpl.
    + split; [discriminate | intros [post H]; discriminate].
    + rewrite andb_true_iff, IH. unfold char_eqb. rewrite N.eqb_eq.
      split.
      * intros [-> [post ->]]. now exists post.
      * intros [post H]. injection H as -> ->. eauto.
Qed.

(** [contains] is the substring relation. *)
Lemma contains_spec (s needle : str) :
  contains s needle = true <-> exists pre post, s = pre ++ needle ++ post.
Proof.
  induction s as [|c s IH].
  - cbn [contains]. rewrite orb_false_r, startswith_spec. split.
    + intros [post H]. now exists [], post.
    + intros [pre [post H]]. destruct pre; simpl in H.
      * now exists post.
      * discriminate.
  - cbn [contains]. rewrite orb_true_iff, startswith_spec, IH. split.
    + intros [[post H]|[pre [post H]]].
      * now exists [], post.
      * exists (c :: pre), post. now rewrite H.
    + intros [pre [post H]]. destruct pre as [|x pre]; simpl in H.
      * left. now exists post.
      * right. injection H as -> ->. now exists pre, post.
Qed.

End PyStrFacts.

(* ================================================================== *)
(** ** [normalize_phone] *)
(* ================================================================== *)

Module NormalizeFacts.

Lemma lstrip_no_leading_space (s : str) :
  no_leading_space (lstrip s) = true.
Proof.
  induction s as [|c s IH]; simpl; auto.
  destruct (isspace c) eqn:E; auto. simpl. now rewrite E.
Qed.

Lemma lstrip_fixed (s : str) :
  no_leading_space s = true -> lstrip s = s.
Proof.
  destruct s as [|c s]; simpl; auto.
  now destruct (isspace c).
Qed.

Lemma lstrip_snoc (l : str) (c : char) :
  isspace c = false -> lstrip (l ++ [c]) = lstrip l ++ [c].
Proof.
  intros Hc. induction l as [|a l IH]; simpl.
  - now rewrite Hc.
  - now destruct (isspace a).
Qed.

Lemma rstrip_cons (c : char) (s : str) :
  isspace c = false -> rstrip (c :: s) = c :: rstrip s.
Proof.
  intros Hc. unfold rstrip. simpl.
  now rewrite lstrip_snoc, rev_app_distr.
Qed.

Lemma strip_trimmed (s : str) : trimmed (strip s) = true.
Proof.
  unfold trimmed, strip. apply andb_true_iff. split.
  - pose proof (lstrip_no_leading_space s) as H.
    destruct (lstrip s) as [|c t]; [reflexivity|].
    simpl in H. apply negb_true_iff in H.
    now rewrite rstrip_cons; simpl; [rewrite H|].
  - unfold rstrip. rewrite rev_involutive.
    apply lstrip_no_leading_space.
Qed.

Lemma strip_fixed (s : str) : trimmed s = true -> strip s = s.
Proof.
  unfold trimmed, strip, rstrip. intros H.
  apply andb_true_iff in H as [H1 H2].
  now rewrite (lstrip_fixed _ H1), (lstrip_fixed _ H2), rev_involutive.
Qed.

(** Replacing the space by the empty string filters the spaces out. *)
Lemma replace1_space (s : str) :
  replace1 SPACE (lit "") s = filter (fun c => negb (char_eqb c SPACE)) s.
Proof.
  unfold replace1. induction s as [|c s IH]; simpl; auto.
  destruct (char_eqb c SPACE); simpl; now rewrite IH.
Qed.

Lemma replace1_space_spaceless (s : str) :
  spaceless (replace1 SPACE (lit "") s) = true.
Proof.
  rewrite replace1_space. unfold spaceless.
  apply forallb_forall. intros c Hc. now apply filter_In in Hc.
Qed.

Lemma replace1_space_fixed (s : str) :
  spaceless s = true -> replace1 SPACE (lit "") s = s.
Proof.
  rewrite replace1_space. unfold spaceless.
  induction s as [|c s IH]; simpl; auto.
  intros H. apply andb_true_iff in H as [H1 H2].
  now rewrite H1, IH.
Qed.

Lemma space_is_space (c : char) : isspace c = false -> char_eqb c SPACE = false.
Proof.
  intros H. unfold char_eqb, SPACE. apply N.eqb_neq. intros ->.
  discriminate H.
Qed.

Lemma filter_no_leading_space (s : str) :
  no_leading_space s = true ->
  no_leading_space (filter (fun c => negb (char_eqb c SPACE)) s) = true.
Proof.
  destruct s as [|c s]; simpl; auto.
  intros H. apply negb_true_iff in H.
  rewrite (space_is_space _ H). simpl. now rewrite H.
Qed.

Lemma replace1_space_trimmed (s : str) :
  trimmed s = true -> trimmed (replace1 SPACE (lit "") s) = true.
Proof.
  rewrite replace1_space. unfold trimmed. intros H.
  apply andb_true_iff in H as [H1 H2]. apply andb_true_iff. split.
  - now apply filter_no_leading_space.
  - rewrite <- filter_rev. now apply filter_no_leading_space.
Qed.

Lemma cleaned_trimmed (s : str) : trimmed (cleaned s) = true.
Proof. apply replace1_space_trimmed, strip_trimmed. Qed.

Lemma cleaned_spaceless (s : str) : spaceless (cleaned s) = true.
Proof. apply replace1_space_spaceless. Qed.

Lemma cleaned_fixed (s : str) :
  trimmed s = true -> spaceless s = true -> cleaned s = s.
Proof.
  intros Ht Hs. unfold cleaned.
  now rewrite (strip_fixed _ Ht), (replace1_space_fixed _ Hs).
Qed.

(** A leading "00" excludes a leading "+": the two tests of the source
    collapse into one. *)
Lemma normalize_phone_cases (s : str) :
  normalize_phone s =
    if startswith (cleaned s) (lit "00")
    then lit "+" ++ slice_from 2 (cleaned s)
    else cleaned s.
Proof.
  unfold normalize_phone. fold (cleaned s).
  destruct (cleaned s) as [|a t]; [reflexivity|].
  unfold char_eqb; destruct t; cbn; unfold char_eqb;
    destruct (N.eqb_spec a 43) as [->|]; reflexivity.
Qed.

Lemma normalize_phone_trimmed (s : str) :
  trimmed (normalize_phone s) = true.
Proof.
  rewrite normalize_phone_cases.
  pose proof (cleaned_trimmed s) as Ht.
  destruct (startswith (cleaned s) (lit "00")) eqn:E; auto.
  apply PyStrFacts.startswith_spec in E as [post E].
  rewrite E in *. cbn [lit slice_from skipn app List.map
    list_ascii_of_string] in *.
  unfold trimmed in *. apply andb_true_iff in Ht as [_ Ht].
  apply andb_true_iff. split; [reflexivity|].
  simpl in *. rewrite <- app_assoc in Ht. simpl in Ht.
  destruct (rev post) as [|x r]; [reflexivity|]. exact Ht.
Qed.

Lemma normalize_phone_spaceless (s : str) :
  spaceless (normalize_phone s) = true.
Proof.
  rewrite normalize_phone_cases.
  pose proof (cleaned_spaceless s) as Hs.
  destruct (startswith (cleaned s) (lit "00")) eqn:E; auto.
  apply PyStrFacts.startswith_spec in E as [post E].
  rewrite E in *. exact Hs.
Qed.

Lemma normalize_phone_no_00 (s : str) :
  startswith (normalize_phone s) (lit "00") = false.
Proof.
  rewrite normalize_phone_cases.
  destruct (startswith (cleaned s) (lit "00")) eqn:E; auto.
Qed.

End NormalizeFacts.

(** C10. [normalize_phone] is idempotent; its result holds no space
    character at all, wherever the spaces of the input were; and, with
    [t] the input stripped and without its spaces, it rewrites a leading
    "00" of [t] to "+" and leaves every other [t] as it is, so a [t] that
    starts with "+" (even "+00...") is never rewritten. *)
Theorem normalize_phone_idempotent :
  (forall s, normalize_phone (normalize_phone s) = normalize_phone s)
  /\ (forall s, ~ In SPACE (normalize_phone s))
  /\ (forall s,
        let t := replace1 SPACE (lit "") (strip s) in
        normalize_phone s =
          if negb (startswith t (lit "+")) && startswith t (lit "00")
          then lit "+" ++ slice_from 2 t else t).
Proof.
  assert (Hidem : forall s,
             normalize_phone (normalize_phone s) = normalize_phone s).
  { intros s.
    rewrite (NormalizeFacts.normalize_phone_cases (normalize_phone s)).
    rewrite (NormalizeFacts.cleaned_fixed _
               (NormalizeFacts.normalize_phone_trimmed s)
               (NormalizeFacts.normalize_phone_spaceless s)).
    now rewrite NormalizeFacts.normalize_phone_no_00. }
  repeat split.
  - exact Hidem.
  - intros s Hin.
    pose proof (NormalizeFacts.normalize_phone_spaceless s) as H.
    unfold spaceless in H. rewrite forallb_forall in H.
    specialize (H _ Hin). unfold char_eqb in H.
    now rewrite N.eqb_refl in H.
  - intros s t. subst t. unfold normalize_phone.
    now destruct (startswith _ (lit "+")).
Qed.

(** A string that already starts with "+" keeps a following "00"; inner
    spaces go, wherever they are. *)
Example normalize_phone_examples :
  normalize_phone (lit "  00 225 07 00 ") = lit "+2250700"
  /\ normalize_phone (lit "+00 225") = lit "+00225"
  /\ normalize_phone (lit "0022 5") = lit "+225".
Proof. repeat split; reflexivity. Qed.

(* ================================================================== *)
(** ** [format_int] *)
(* ================================================================== *)

Module FormatFacts.

Open Scope Z_scope.








End FormatFacts.

(* ================================================================== *)
(** ** Queries and updates of the store *)
(* ================================================================== *)

Section Queries.

Variable D : Type.
Variable key : D -> Z.

Lemma insert_desc_In (d x : D) (l : list D) :
  In x (insert_desc key d l) <-> x = d \/ In x l.
Proof.
  induction l as [|y l IH]; simpl.
  - intuition.
  - destruct (key y <=? key d)%Z; simpl; rewrite ?IH; intuition.
Qed.

Lemma sort_desc_In (x : D) (l : list D) :
  In x (sort_desc key l) <-> In x l.
Proof.
  induction l as [|y l IH]; simpl; [reflexivity|].
  rewrite insert_desc_In, IH. intuition.
Qed.

Lemma insert_desc_head (d : D) (l : list D) :
  head_is_max key l -> head_is_max key (insert_desc key d l).
Proof.
  destruct l as [|x l]; simpl.
  - intros _ y [->|[]]. lia.
  - intros Hx. destruct (Z.leb_spec (key x) (key d)); simpl.
    + intros y [->|Hy]; [lia|]. specialize (Hx y Hy). lia.
    + intros y [->|Hy]; [lia|].
      apply insert_desc_In in Hy as [->|Hy]; [lia|].
      apply Hx. now right.
Qed.

Lemma sort_desc_head (l : list D) : head_is_max key (sort_desc key l).
Proof.
  induction l as [|d l IH]; simpl; [exact I|].
  now apply insert_desc_head.
Qed.

(** [sort(key, -1).limit(1)] then [next]: a document of the cursor
    with the greatest key, and nothing only from an empty cursor. *)
Lemma first_sorted_Some (l : list D) (x : D) :
  next_or_none (limit 1 (sort_desc key l)) = Some x ->
  In x l /\ forall y, In y l -> (key y <= key x)%Z.
Proof.
  intros H. pose proof (sort_desc_head l) as Hm.
  pose proof (fun y => sort_desc_In y l) as Hin.
  destruct (sort_desc key l) as [|z s]; simpl in H; [discriminate|].
  injection H as ->. split.
  - apply Hin. now left.
  - intros y Hy. apply Hm, Hin, Hy.
Qed.

Lemma first_sorted_None (l : list D) :
  next_or_none (limit 1 (sort_desc key l)) = None <-> l = [].
Proof.
  split.
  - intros H. pose proof (fun y => sort_desc_In y l) as Hin.
    destruct (sort_desc key l) as [|z s]; simpl in H; [|discriminate].
    destruct l as [|y l]; [reflexivity|].
    destruct (proj2 (Hin y) (or_introl eq_refl)).
  - now intros ->.
Qed.

(** Sorting and filtering commute with a rewrite of the documents that
    keeps what they look at. *)
Lemma insert_desc_map (f : D -> D) (d : D) (l : list D) :
  (forall x, key (f x) = key x) ->
  insert_desc key (f d) (List.map f l)
  = List.map f (insert_desc key d l).
Proof.
  intros Hf. induction l as [|y l IH]; simpl; [reflexivity|].
  rewrite !Hf. destruct (key y <=? key d)%Z; simpl; [reflexivity|].
  now rewrite IH.
Qed.

Lemma sort_desc_map (f : D -> D) (l : list D) :
  (forall x, key (f x) = key x) ->
  sort_desc key (List.map f l) = List.map f (sort_desc key l).
Proof.
  intros Hf. induction l as [|y l IH]; simpl; [reflexivity|].
  now rewrite IH, insert_desc_map.
Qed.

Lemma filter_map_same (p : D -> bool) (f : D -> D) (l : list D) :
  (forall x, p (f x) = p x) ->
  filter p (List.map f l) = List.map f (filter p l).
Proof.
  intros Hf. induction l as [|y l IH]; simpl; [reflexivity|].
  rewrite Hf. destruct (p y); simpl; now rewrite IH.
Qed.

Lemma first_sorted_map (f : D -> D) (l : list D) :
  (forall x, key (f x) = key x) ->
  next_or_none (limit 1 (sort_desc key (List.map f l)))
  = option_map f (next_or_none (limit 1 (sort_desc key l))).
Proof.
  intros Hf. rewrite (sort_desc_map _ _ Hf).
  now destruct (sort_desc key l).
Qed.

Variable id : D -> ObjectId.

(** With unique identifiers, [update_one] by [_id] rewrites exactly the
    documents of that identifier: at most one. *)
Lemma update_one_by_id (oid : ObjectId) (set : D -> D) (c : list D) :
  NoDup (List.map id c) ->
  update_one (fun d => Nat.eqb (id d) oid) set c
  = update_by_id id oid set c.
Proof.
  unfold update_by_id.
  induction c as [|d c IH]; simpl; [reflexivity|].
  intros Hnd. inversion Hnd as [|? ? Hnotin Hnd']; subst.
  destruct (Nat.eqb_spec (id d) oid) as [E|E].
  - f_equal. symmetry. erewrite map_ext_in; [apply map_id|].
    intros x Hx. simpl.
    destruct (Nat.eqb_spec (id x) oid) as [E'|]; [|reflexivity].
    exfalso. apply Hnotin. rewrite E, <- E'. now apply in_map.
  - now rewrite IH.
Qed.

Lemma update_one_ids (m : D -> bool) (set : D -> D) (c : list D) :
  (forall d, id (set d) = id d) ->
  List.map id (update_one m set c) = List.map id c.
Proof.
  intros Hs. induction c as [|d c IH]; simpl; [reflexivity|].
  destruct (m d); simpl; now rewrite ?Hs, ?IH.
Qed.

End Queries.

(* ================================================================== *)
(** ** The handlers, run on a store *)
(* ================================================================== *)

Section HandlerFacts.

Context {unicode : UnicodeCase}.

Open Scope Z_scope.

Lemma get_latest_otp_run (phone : str) (st : Store) :
  get_latest_otp phone st = (st, inr (latest_session phone st)).
Proof. reflexivity. Qed.

(** The session returned is one of the phone, and none of the phone was
    created later. *)
Lemma latest_session_Some (phone : str) (st : Store)
    (rec : OtpSessionDoc) :
  latest_session phone st = Some rec ->
  In rec (otpsession st)
  /\ otp_phone rec = phone
  /\ forall d, In d (otpsession st) -> otp_phone d = phone ->
               otp_created_at d <= otp_created_at rec.
Proof.
  unfold latest_session, get_latest_otp, gets, find. intros H.
  apply first_sorted_Some in H as [Hin Hmax].
  apply filter_In in Hin as [Hin Hp].
  apply PyStrFacts.eqb_eq in Hp. repeat split; auto.
  intros d Hd Hdp. apply Hmax, filter_In. split; auto.
  now apply PyStrFacts.eqb_eq.
Qed.

Lemma latest_session_None (phone : str) (st : Store) :
  latest_session phone st = None
  <-> forall d, In d (otpsession st) -> otp_phone d <> phone.
Proof.
  unfold latest_session, get_latest_otp, gets, find.
  rewrite first_sorted_None. split.
  - intros H d Hd Hp.
    assert (Hin : In d (filter (fun d => PyStr.eqb (otp_phone d) phone)
                               (otpsession st))).
    { apply filter_In. split; auto. now apply PyStrFacts.eqb_eq. }
    now rewrite H in Hin.
  - intros H.
    destruct (filter _ (otpsession st)) as [|d l] eqn:E; auto.
    assert (Hin : In d (d :: l)) by now left.
    rewrite <- E in Hin. apply filter_In in Hin as [Hin Hp].
    apply PyStrFacts.eqb_eq in Hp. now destruct (H d Hin).
Qed.

(** The session consulted does not depend on the identities. *)
Lemma latest_session_otpsession (phone : str) (st st' : Store) :
  otpsession st' = otpsession st ->
  latest_session phone st' = latest_session phone st.
Proof.
  unfold latest_session, get_latest_otp, gets. now intros ->.
Qed.

Lemma verify_otp_run (st : Store) (payload : VerifyOtpRequest)
    (now now_update : datetime) :
  verify_otp (Some st) payload now now_update =
    let phone := normalize_phone (verify_phone payload) in
    match latest_session phone st with
    | None => (Some st, inl NotFound)
    | Some rec =>
        if now >? get_expires_at rec now then (Some st, inl Expired)
        else if code_differs (verify_code payload) rec
        then (Some st, inl InvalidCode)
        else
          (Some (set_otpsession
                   (update_one (fun d => Nat.eqb (otp_id d) (otp_id rec))
                               (set_verified now_update) (otpsession st))
                   st),
           inr {| status := lit "VERIFIED"; resp_phone := phone |})
    end.
Proof.
  unfold verify_otp, require_db, bind. rewrite get_latest_otp_run.
  cbv zeta.
  destruct (latest_session _ st) as [rec|]; [|reflexivity].
  destruct (now >? get_expires_at rec now); [reflexivity|].
  destruct (code_differs _ rec); reflexivity.
Qed.

Lemma register_identity_run (st : Store)
    (payload : RegisterIdentityRequest) (now_update now_insert : datetime) :
  register_identity (Some st) payload now_update now_insert =
    let phone := normalize_phone (reg_phone payload) in
    let kyc := kyc_rule_engine (reg_country payload) (reg_name payload)
                               (reg_email payload) in
    if match latest_session phone st with
       | None => true
       | Some rec => not_verified rec
       end
    then (Some st, inl PhoneNotVerified)
    else if negb (reg_faith_affirmation payload)
    then (Some st, inl AffirmationRequired)
    else if negb (pass kyc)
    then (Some st, inl (ComplianceRejected (flags kyc)))
    else
      match find_one (fun d => PyStr.eqb (id_phone d) phone)
                     (identity st) with
      | Some existing =>
          (Some (set_identity
                   (update_one
                      (fun d => Nat.eqb (id_id d) (id_id existing))
                      (set_profile payload now_update) (identity st)) st),
           inr {| status := lit "UPDATED"; resp_phone := phone |})
      | None =>
          (Some {| otpsession := otpsession st;
                   identity :=
                     identity st ++
                     [{| id_id := next_oid st;
                         id_phone := phone;
                         id_name := reg_name payload;
                         id_email := reg_email payload;
                         id_country := reg_country payload;
                         id_faith_affirmation :=
                           reg_faith_affirmation payload;
                         id_created_at := now_insert;
                         id_updated_at := None |}];
                   next_oid := S (next_oid st) |},
           inr {| status := lit "CREATED"; resp_phone := phone |})
      end.
Proof.
  unfold register_identity, require_db, bind.
  rewrite get_latest_otp_run. cbv zeta.
  destruct (match latest_session _ st with
            | None => true
            | Some rec => not_verified rec
            end); [reflexivity|].
  destruct (negb (reg_faith_affirmation payload)); [reflexivity|].
  destruct (negb (pass _)); [reflexivity|].
  unfold gets.
  destruct (find_one _ (identity st)); reflexivity.
Qed.

Lemma start_otp_run (st : Store) (payload : StartOtpRequest)
    (randint : Z) (now now_insert : datetime) :
  start_otp (Some st) payload randint now now_insert =
    let phone := normalize_phone (start_phone payload) in
    (Some {| otpsession :=
               otpsession st ++
               [{| otp_id := next_oid st;
                   otp_phone := phone;
                   otp_code := Some (format_int (random_randint 100000 999999 randint));
                   otp_expires_at := Some (now + timedelta_minutes 5);
                   otp_verified := Some false;
                   otp_created_at := now_insert;
                   otp_updated_at := None |}];
             identity := identity st;
             next_oid := S (next_oid st) |},
     inr {| start_status := lit "OTP_SENT";
            start_resp_phone := phone;
            expires_in_sec := 300;
            debug_code := format_int (random_randint 100000 999999 randint) |}).
Proof. reflexivity. Qed.

(** *** The identifiers stay unique *)

Lemma wf_empty_store : wf empty_store.
Proof. split; simpl; constructor. Qed.

Lemma NoDup_snoc_fresh (l : list nat) (n : nat) :
  NoDup l -> Forall (fun x => (x < n)%nat) l -> NoDup (l ++ [n]).
Proof.
  intros Hnd Hlt. apply NoDup_app; auto.
  - repeat constructor. intros [].
  - intros x Hx [<-|[]]. rewrite Forall_forall in Hlt.
    specialize (Hlt _ Hx). lia.
Qed.

Lemma Forall_lt_S {D} (id : D -> nat) (n : nat) (c : list D) :
  Forall (fun d => (id d < n)%nat) c ->
  Forall (fun d => (id d < S n)%nat) c.
Proof. apply Forall_impl. intros; lia. Qed.

Lemma Forall_update_one {D} (id : D -> nat) (n : nat) (m : D -> bool)
    (set : D -> D) (c : list D) :
  (forall d, id (set d) = id d) ->
  Forall (fun d => (id d < n)%nat) c ->
  Forall (fun d => (id d < n)%nat) (update_one m set c).
Proof.
  intros Hs. induction 1 as [|d c Hd Hc IH]; simpl; [constructor|].
  destruct (m d); constructor; auto. now rewrite Hs.
Qed.

Lemma wf_start_otp (st st' : Store) payload randint now now_insert :
  wf st ->
  fst (start_otp (Some st) payload randint now now_insert) = Some st' ->
  wf st'.
Proof.
  intros [H1 H2 H3 H4]. rewrite start_otp_run. cbn [fst].
  intros [= <-]. split; cbn [otpsession identity next_oid].
  - rewrite map_app. cbn [List.map otp_id].
    apply NoDup_snoc_fresh; auto.
    apply Forall_map; exact H3.
  - exact H2.
  - apply Forall_app. split; [now apply Forall_lt_S|].
    repeat constructor.
  - now apply Forall_lt_S.
Qed.

Lemma wf_verify_otp (st st' : Store) payload now now_update :
  wf st ->
  fst (verify_otp (Some st) payload now now_update) = Some st' ->
  wf st'.
Proof.
  intros Hwf. rewrite verify_otp_run. cbv zeta.
  destruct (latest_session _ st) as [rec|];
    [|now intros [= <-]].
  destruct (now >? get_expires_at rec now); [now intros [= <-]|].
  destruct (code_differs _ rec); [now intros [= <-]|].
  cbn [fst]. intros [= <-]. destruct Hwf as [H1 H2 H3 H4].
  split; cbn [otpsession identity next_oid set_otpsession]; auto.
  - now rewrite update_one_ids.
  - now apply Forall_update_one.
Qed.

Lemma wf_register_identity (st st' : Store) payload now_update now_insert :
  wf st ->
  fst (register_identity (Some st) payload now_update now_insert)
  = Some st' ->
  wf st'.
Proof.
  intros Hwf. rewrite register_identity_run. cbv zeta.
  destruct (match latest_session _ st with
            | None => true
            | Some rec => not_verified rec
            end); [now intros [= <-]|].
  destruct (negb (reg_faith_affirmation payload)); [now intros [= <-]|].
  destruct (negb (pass _)); [now intros [= <-]|].
  destruct Hwf as [H1 H2 H3 H4].
  destruct (find_one _ (identity st)) as [ex|]; cbn [fst];
    intros [= <-]; split;
    cbn [otpsession identity next_oid set_identity]; auto.
  - now rewrite update_one_ids.
  - now apply Forall_update_one.
  - rewrite map_app. cbn [List.map id_id].
    apply NoDup_snoc_fresh; auto. apply Forall_map; exact H4.
  - now apply Forall_lt_S.
  - apply Forall_app. split; [now apply Forall_lt_S|].
    repeat constructor.
Qed.

(** Every store the endpoints can produce has unique identifiers. *)
Lemma reachable_wf (st : Store) : reachable st -> wf st.
Proof.
  induction 1 as [|st st' ? ? ? ? _ IH H|st st' ? ? ? _ IH H
                  |st st' ? ? ? _ IH H].
  - exact wf_empty_store.
  - eapply wf_start_otp; eassumption.
  - eapply wf_verify_otp; eassumption.
  - eapply wf_register_identity; eassumption.
Qed.

End HandlerFacts.

(* ================================================================== *)
(** ** Verification of a code *)
(* ================================================================== *)

Section VerifyOtp.

Open Scope Z_scope.

Lemma not_gt_false (a b : Z) : a <= b -> (a >? b) = false.
Proof. intros H. rewrite Z.gtb_ltb. now apply Z.ltb_ge. Qed.

Lemma gt_true (a b : Z) : a > b -> (a >? b) = true.
Proof. intros H. rewrite Z.gtb_ltb. apply Z.ltb_lt. lia. Qed.

Lemma code_differs_true (supplied : str) (rec : OtpSessionDoc) :
  otp_code rec <> Some supplied -> code_differs supplied rec = true.
Proof.
  unfold code_differs. destruct (otp_code rec) as [c|]; auto.
  intros H. apply negb_true_iff, PyStrFacts.eqb_neq. congruence.
Qed.

Lemma code_differs_false (supplied : str) (rec : OtpSessionDoc) :
  otp_code rec = Some supplied -> code_differs supplied rec = false.
Proof.
  unfold code_differs. intros ->. now rewrite PyStrFacts.eqb_refl.
Qed.

(** Rewriting sessions without touching phone or creation time keeps
    the latest session the latest. *)
Lemma latest_session_map (f : OtpSessionDoc -> OtpSessionDoc)
    (phone : str) (st : Store) :
  (forall d, otp_phone (f d) = otp_phone d) ->
  (forall d, otp_created_at (f d) = otp_created_at d) ->
  latest_session phone (set_otpsession (List.map f (otpsession st)) st)
  = option_map f (latest_session phone st).
Proof.
  intros Hp Hc. unfold latest_session, get_latest_otp, gets, find.
  cbn [otpsession set_otpsession].
  rewrite filter_map_same by (intros; now rewrite Hp).
  now apply first_sorted_map.
Qed.

Lemma update_by_id_set_verified_twice (oid : ObjectId) (t t' : datetime)
    (c : list OtpSessionDoc) :
  update_by_id otp_id oid (set_verified t')
               (update_by_id otp_id oid (set_verified t) c)
  = update_by_id otp_id oid (set_verified t') c.
Proof.
  unfold update_by_id. rewrite map_map. apply map_ext. intros d.
  destruct (Nat.eqb (otp_id d) oid) eqn:E; cbn [otp_id set_verified];
    now rewrite E.
Qed.

Lemma update_by_id_ids (oid : ObjectId) (t : datetime)
    (c : list OtpSessionDoc) :
  List.map otp_id (update_by_id otp_id oid (set_verified t) c)
  = List.map otp_id c.
Proof.
  unfold update_by_id. rewrite map_map. apply map_ext. intros d.
  now destruct (Nat.eqb (otp_id d) oid).
Qed.

End VerifyOtp.

(** C2. [verify_otp] looks only at the latest session of the normalised
    phone: a session of that phone than which none was created later
    (none at all exactly when the phone has no session), and two stores
    with the same latest session get the same answer.  In this order it
    fails with NotFound when there is no session, with Expired when the
    clock is strictly past the session's [expires_at], whatever the code,
    and with InvalidCode when the session has not expired and the code
    supplied is not the code stored. *)
Theorem verify_otp_failure_order (st : Store) (payload : VerifyOtpRequest)
    (now now_update : datetime) :
  let phone := normalize_phone (verify_phone payload) in
  let run := verify_otp (Some st) payload now now_update in
  (forall rec, latest_session phone st = Some rec ->
     In rec (sessions_of phone st)
     /\ forall d, In d (sessions_of phone st) ->
                  (otp_created_at d <= otp_created_at rec)%Z)
  /\ (latest_session phone st = None <-> sessions_of phone st = [])
  /\ (forall st2, latest_session phone st2 = latest_session phone st ->
        snd (verify_otp (Some st2) payload now now_update) = snd run)
  /\ (latest_session phone st = None -> run = (Some st, inl NotFound))
  /\ (forall rec e,
        latest_session phone st = Some rec ->
        otp_expires_at rec = Some e -> (now > e)%Z ->
        run = (Some st, inl Expired))
  /\ (forall rec,
        latest_session phone st = Some rec ->
        (now <= get_expires_at rec now)%Z ->
        otp_code rec <> Some (verify_code payload) ->
        run = (Some st, inl InvalidCode)).
Proof.
  intros phone run. subst run. repeat split.
  - apply latest_session_Some in H as (Hin & Hp & _).
    apply filter_In. split; auto. now apply PyStrFacts.eqb_eq.
  - intros d Hd. apply filter_In in Hd as [Hd Hp].
    apply PyStrFacts.eqb_eq in Hp.
    apply latest_session_Some in H as (_ & _ & Hmax). now apply Hmax.
  - unfold latest_session, get_latest_otp, gets, find, sessions_of.
    apply first_sorted_None.
  - unfold latest_session, get_latest_otp, gets, find, sessions_of.
    apply first_sorted_None.
  - intros st2 H. rewrite !verify_otp_run. cbv zeta. fold phone.
    rewrite H. destruct (latest_session phone st) as [rec|]; auto.
    destruct (now >? get_expires_at rec now)%Z; auto.
    destruct (code_differs _ rec); auto.
  - intros H. rewrite verify_otp_run. cbv zeta. fold phone. now rewrite H.
  - intros rec e H He Hnow. rewrite verify_otp_run. cbv zeta. fold phone.
    rewrite H. unfold get_expires_at. rewrite He.
    now rewrite gt_true.
  - intros rec H Hnow Hcode. rewrite verify_otp_run. cbv zeta. fold phone.
    rewrite H, (not_gt_false Hnow). now rewrite code_differs_true.
Qed.

(** The correct code, six minutes after the start: Expired. *)
Lemma verify_otp_failure_order_witness :
  verify_otp (Some Demo.started) Demo.good_code 360000000 360000001
  = (Some Demo.started, inl Expired).
Proof.
  apply (proj1 (proj2 (proj2 (proj2 (proj2
           (verify_otp_failure_order Demo.started Demo.good_code
              360000000 360000001)))))
           (Demo.session false None) 300000000%Z).
  - reflexivity.
  - reflexivity.
  - reflexivity.
Defined.

(** C8. When the latest session has not expired and the code supplied is
    not the code stored, [verify_otp] fails with InvalidCode and the
    store it returns is the store it was given: no session is updated,
    the latest session is the same document, and its [verified] field
    is what it was.  Whenever the answer is InvalidCode the store is
    unchanged. *)
Theorem verify_otp_invalid_code_keeps_store (st : Store)
    (payload : VerifyOtpRequest) (now now_update : datetime)
    (rec : OtpSessionDoc) :
  let phone := normalize_phone (verify_phone payload) in
  latest_session phone st = Some rec ->
  (now <= get_expires_at rec now)%Z ->
  otp_code rec <> Some (verify_code payload) ->
  exists db',
    verify_otp (Some st) payload now now_update = (db', inl InvalidCode)
    /\ db' = Some st
    /\ option_map (latest_session phone) db' = Some (Some rec)
    /\ option_map otpsession db' = Some (otpsession st).
Proof.
  intros phone H Hnow Hcode. exists (Some st).
  rewrite verify_otp_run. cbv zeta. fold phone.
  rewrite H, (not_gt_false Hnow), (code_differs_true _ Hcode).
  cbn [option_map]. now rewrite H.
Qed.

(** A wrong code one minute after the start. *)
Lemma verify_otp_invalid_code_keeps_store_witness :
  exists db',
    verify_otp (Some Demo.started) Demo.wrong_code 60000000 60000001
    = (db', inl InvalidCode)
    /\ db' = Some Demo.started
    /\ option_map (latest_session Demo.phone) db'
       = Some (Some (Demo.session false None))
    /\ option_map otpsession db' = Some (otpsession Demo.started).
Proof.
  apply (@verify_otp_invalid_code_keeps_store Demo.started Demo.wrong_code
           60000000 60000001 (Demo.session false None)).
  - reflexivity.
  - cbn. lia.
  - cbn. discriminate.
Defined.

(** Any InvalidCode answer comes with the store unchanged. *)
Lemma verify_otp_invalid_code_only_unchanged (st : Store)
    (payload : VerifyOtpRequest) (now now_update : datetime)
    (db' : option Store) :
  verify_otp (Some st) payload now now_update = (db', inl InvalidCode) ->
  db' = Some st.
Proof.
  rewrite verify_otp_run. cbv zeta.
  destruct (latest_session _ st) as [rec|]; [|now intros [= <-]].
  destruct (now >? get_expires_at rec now)%Z; [now intros [= <-]|].
  destruct (code_differs _ rec); [now intros [= <-]|].
  intros [=].
Qed.

(** C6. With the correct code and the session not expired, [verify_otp]
    answers VERIFIED and rewrites the latest session alone: its
    [verified] becomes true (whatever it was, false in particular) and
    its [updated_at] the clock of the update; it stays the latest
    session.  Verifying again, still before expiry, answers VERIFIED
    again and leaves the store the first verification would have left
    with the clock of the second: the session verified, [updated_at]
    the later clock; with the same clock the store does not change. *)
Theorem verify_otp_success_idempotent (st : Store)
    (payload : VerifyOtpRequest) (now now_update : datetime)
    (rec : OtpSessionDoc) :
  let phone := normalize_phone (verify_phone payload) in
  let verified_at t :=
    set_otpsession
      (update_by_id otp_id (otp_id rec) (set_verified t) (otpsession st))
      st in
  let ok := inr {| status := lit "VERIFIED"; resp_phone := phone |} in
  wf st ->
  latest_session phone st = Some rec ->
  (now <= get_expires_at rec now)%Z ->
  otp_code rec = Some (verify_code payload) ->
  verify_otp (Some st) payload now now_update
  = (Some (verified_at now_update), ok)
  /\ latest_session phone (verified_at now_update)
     = Some (set_verified now_update rec)
  /\ otp_verified (set_verified now_update rec) = Some true
  /\ otp_updated_at (set_verified now_update rec) = Some now_update
  /\ (forall now2 now_update2,
        (now2 <= get_expires_at rec now2)%Z ->
        verify_otp (Some (verified_at now_update)) payload now2 now_update2
        = (Some (verified_at now_update2), ok))
  /\ (forall now2,
        (now2 <= get_expires_at rec now2)%Z ->
        verify_otp (Some (verified_at now_update)) payload now2 now_update
        = (Some (verified_at now_update), ok)).
Proof.
  intros phone verified_at ok Hwf Hlatest Hnow Hcode.
  assert (Hrun : forall t1 t2,
             (t1 <= get_expires_at rec t1)%Z ->
             verify_otp (Some st) payload t1 t2 = (Some (verified_at t2), ok)).
  { intros t1 t2 Ht. rewrite verify_otp_run. cbv zeta. fold phone.
    rewrite Hlatest, (not_gt_false Ht), (code_differs_false _ Hcode).
    now rewrite update_one_by_id by exact (wf_otp_unique Hwf). }
  assert (Hlatest' : forall t,
             latest_session phone (verified_at t)
             = Some (set_verified t rec)).
  { intros t. unfold verified_at, update_by_id.
    rewrite latest_session_map.
    - rewrite Hlatest. cbn [option_map]. now rewrite Nat.eqb_refl.
    - intros d. now destruct (Nat.eqb (otp_id d) (otp_id rec)).
    - intros d. now destruct (Nat.eqb (otp_id d) (otp_id rec)). }
  assert (Hagain : forall t1 t2,
             (t1 <= get_expires_at rec t1)%Z ->
             verify_otp (Some (verified_at now_update)) payload t1 t2
             = (Some (verified_at t2), ok)).
  { intros t1 t2 Ht. rewrite verify_otp_run. cbv zeta. fold phone.
    rewrite Hlatest'.
    change (get_expires_at (set_verified now_update rec) t1)
      with (get_expires_at rec t1).
    rewrite (not_gt_false Ht).
    rewrite code_differs_false by exact Hcode.
    cbn [otp_id set_verified]. unfold verified_at at 1 2.
    cbn [otpsession set_otpsession].
    rewrite update_one_by_id
      by (rewrite update_by_id_ids; exact (wf_otp_unique Hwf)).
    now rewrite update_by_id_set_verified_twice. }
  repeat split; auto.
Qed.

(** The correct code one minute after the start, and once more a minute
    later. *)
Lemma verify_otp_success_idempotent_witness :
  verify_otp (Some Demo.started) Demo.good_code 60000000 60000000
  = (Some Demo.verified,
     inr {| status := lit "VERIFIED"; resp_phone := Demo.phone |})
  /\ verify_otp (Some Demo.verified) Demo.good_code 120000000 60000000
     = (Some Demo.verified,
        inr {| status := lit "VERIFIED"; resp_phone := Demo.phone |}).
Proof.
  assert (Hwf : wf Demo.started).
  { split; cbn; repeat constructor; intros []. }
  pose proof (@verify_otp_success_idempotent Demo.started
                Demo.good_code 60000000 60000000
                (Demo.session false None)
                Hwf eq_refl ltac:(cbn; lia) eq_refl)
    as (H1 & _ & _ & _ & _ & H2).
  split.
  - exact H1.
  - exact (H2 120000000%Z ltac:(cbn; lia)).
Defined.

(* ================================================================== *)
(** ** The KYC rule engine *)
(* ================================================================== *)

Section Kyc.

Context {unicode : UnicodeCase}.

Lemma member_In (x : str) (l : list str) : member x l = true <-> In x l.
Proof.
  unfold member. rewrite existsb_exists. split.
  - intros [y [Hy He]]. apply PyStrFacts.eqb_eq in He. now subst.
  - intros H. exists x. split; auto. apply PyStrFacts.eqb_refl.
Qed.

Lemma flag_names_differ : lit "COUNTRY_UNSUPPORTED" <> lit "SUSPECT_NAME".
Proof. intros H. vm_compute in H. discriminate H. Qed.

Lemma suspect_name_spec (s : str) :
  existsb (fun bad => contains s bad) [lit "test"; lit "fake"; lit "demo"]
  = true
  <-> exists bad pre post,
        In bad [lit "test"; lit "fake"; lit "demo"]
        /\ s = pre ++ bad ++ post.
Proof.
  rewrite existsb_exists. split.
  - intros [bad [Hin Hc]]. apply PyStrFacts.contains_spec in Hc.
    destruct Hc as [pre [post Hc]]. now exists bad, pre, post.
  - intros [bad [pre [post [Hin Hc]]]]. exists bad. split; auto.
    apply PyStrFacts.contains_spec. now exists pre, post.
Qed.

Lemma truthy_nonempty (c : str) : truthy c = true <-> c <> [].
Proof. destruct c; simpl; split; congruence. Qed.

(** The condition of the first rule. *)
Lemma country_rule_spec (country : option str) :
  match country with
  | Some c => truthy c && negb (member (upper c) allowed_countries)
  | None => false
  end = true
  <-> exists c, country = Some c /\ c <> []
                /\ ~ In (upper c) allowed_countries.
Proof.
  destruct country as [c|].
  - rewrite andb_true_iff, negb_true_iff, truthy_nonempty.
    rewrite <- not_true_iff_false, member_In. split.
    + intros [H1 H2]. now exists c.
    + intros [c' [[= <-] H]]. exact H.
  - split; [discriminate | intros [c [H _]]; discriminate].
Qed.

Lemma kyc_rule_engine_run (country : option str) (name email : str) :
  kyc_rule_engine country name email =
    let country_rule :=
      match country with
      | Some c => truthy c && negb (member (upper c) allowed_countries)
      | None => false
      end in
    let name_rule :=
      existsb (fun bad => contains (lower name) bad)
              [lit "test"; lit "fake"; lit "demo"] in
    let flags :=
      (if country_rule then [lit "COUNTRY_UNSUPPORTED"] else [])
      ++ (if name_rule then [lit "SUSPECT_NAME"] else []) in
    {| pass := negb country_rule && negb name_rule; flags := flags |}.
Proof.
  unfold kyc_rule_engine. cbv zeta.
  destruct country as [c|];
    [destruct (truthy c && negb (member (upper c) allowed_countries))|];
    destruct (existsb _ _); reflexivity.
Qed.

Lemma kyc_pass_iff_no_flags (country : option str) (name email : str) :
  pass (kyc_rule_engine country name email) = true
  <-> flags (kyc_rule_engine country name email) = [].
Proof.
  rewrite kyc_rule_engine_run. cbv zeta. cbn [flags pass].
  destruct (match country with
            | Some c => truthy c && negb (member (upper c) allowed_countries)
            | None => false
            end);
    destruct (existsb _ _); cbn [app negb andb]; split;
    congruence.
Qed.

End Kyc.

(** C3, as the code has it.  The compliance check flags
    COUNTRY_UNSUPPORTED exactly when a country is provided, is not the
    empty string, and its uppercase form is not in the allow-set; it
    flags SUSPECT_NAME exactly when the lowercased name contains "test",
    "fake" or "demo"; it passes exactly when no flag was raised; and the
    flags come in the order country, name. *)
Theorem kyc_rule_engine_flags {unicode : UnicodeCase}
    (country : option str) (name email : str) :
  let r := kyc_rule_engine country name email in
  let country_flag := lit "COUNTRY_UNSUPPORTED" in
  let name_flag := lit "SUSPECT_NAME" in
  (In country_flag (flags r)
   <-> exists c, country = Some c /\ c <> []
                 /\ ~ In (upper c) allowed_countries)
  /\ (In name_flag (flags r)
      <-> exists bad pre post,
            In bad [lit "test"; lit "fake"; lit "demo"]
            /\ lower name = pre ++ bad ++ post)
  /\ (pass r = true <-> flags r = [])
  /\ (exists by_country by_name : bool,
        flags r = (if by_country then [country_flag] else [])
                  ++ (if by_name then [name_flag] else [])).
Proof.
  intros r country_flag name_flag. subst r country_flag name_flag.
  rewrite kyc_rule_engine_run. cbv zeta. cbn [flags pass].
  rewrite <- country_rule_spec, <- suspect_name_spec.
  pose proof flag_names_differ as Hd.
  destruct (match country with
            | Some c => truthy c && negb (member (upper c) allowed_countries)
            | None => false
            end);
    destruct (existsb _ _); cbn [app negb andb In]; repeat split;
    try tauto; try discriminate; try congruence;
    try (intros [H|H]; try tauto; congruence);
    try (intros [H|[H|H]]; try tauto; congruence).
  all: try (now exists true, true).
  all: try (now exists true, false).
  all: try (now exists false, true).
  all: try (now exists false, false).
Qed.

(** C3 as stated fails on a country that is provided but empty: its
    uppercase form is not in the allow-set, and no flag is raised. *)
Lemma kyc_empty_country_counterexample :
  ~ (In (lit "COUNTRY_UNSUPPORTED")
        (flags (@kyc_rule_engine AsciiCase (Some (lit ""))
                  (lit "Aicha Kone") (lit "a@x.com")))
     <-> exists c, Some (lit "") = Some c
                   /\ ~ In (@upper AsciiCase c) allowed_countries).
Proof.
  intros [_ H].
  assert (Hin : In (lit "COUNTRY_UNSUPPORTED")
                   (flags (@kyc_rule_engine AsciiCase (Some (lit ""))
                             (lit "Aicha Kone") (lit "a@x.com")))).
  { apply H. exists (lit ""). split; [reflexivity|].
    intros Hc. vm_compute in Hc. intuition discriminate. }
  vm_compute in Hin. exact Hin.
Qed.

(** The spec's two rejections and its accepted example. *)
Example kyc_rule_engine_examples :
  @kyc_rule_engine AsciiCase (Some (lit "US")) (lit "Aicha Kone")
                   (lit "a@x.com")
  = {| pass := false; flags := [lit "COUNTRY_UNSUPPORTED"] |}
  /\ @kyc_rule_engine AsciiCase (Some (lit "ci")) (lit "Test User")
                      (lit "a@x.com")
     = {| pass := false; flags := [lit "SUSPECT_NAME"] |}
  /\ @kyc_rule_engine AsciiCase (Some (lit "us")) (lit "A faker")
                      (lit "a@x.com")
     = {| pass := false;
          flags := [lit "COUNTRY_UNSUPPORTED"; lit "SUSPECT_NAME"] |}
  /\ @kyc_rule_engine AsciiCase None (lit "Aicha Kone") (lit "a@x.com")
     = {| pass := true; flags := [] |}.
Proof. repeat split; reflexivity. Qed.

(* ================================================================== *)
(** ** Registration *)
(* ================================================================== *)

Section Register.

Context {unicode : UnicodeCase}.

Lemma not_verified_false (rec : OtpSessionDoc) :
  not_verified rec = false <-> otp_verified rec = Some true.
Proof.
  unfold not_verified.
  destruct (otp_verified rec) as [[|]|]; split; congruence.
Qed.

(** The first gate, as a proposition. *)
Lemma gate_spec (phone : str) (st : Store) :
  match latest_session phone st with
  | None => true
  | Some rec => not_verified rec
  end = false
  <-> phone_verified phone st.
Proof.
  unfold phone_verified.
  destruct (latest_session phone st) as [rec|].
  - rewrite not_verified_false. split.
    + intros H. now exists rec.
    + now intros [rec' [[= <-] H]].
  - split; [discriminate | intros [rec [H _]]; discriminate].
Qed.

Lemma gate_closed (phone : str) (st : Store) :
  ~ phone_verified phone st ->
  match latest_session phone st with
  | None => true
  | Some rec => not_verified rec
  end = true.
Proof.
  intros H. apply not_false_iff_true. now rewrite gate_spec.
Qed.

(** [register_identity] once the three gates are passed. *)
Lemma register_identity_write (st : Store)
    (payload : RegisterIdentityRequest) (now_update now_insert : datetime) :
  let phone := normalize_phone (reg_phone payload) in
  phone_verified phone st ->
  reg_faith_affirmation payload = true ->
  pass (kyc_rule_engine (reg_country payload) (reg_name payload)
                        (reg_email payload)) = true ->
  register_identity (Some st) payload now_update now_insert =
    match find_one (fun d => PyStr.eqb (id_phone d) phone) (identity st)
    with
    | Some existing =>
        (Some (set_identity
                 (update_one (fun d => Nat.eqb (id_id d) (id_id existing))
                             (set_profile payload now_update)
                             (identity st)) st),
         inr (UPDATED phone))
    | None =>
        (Some (insert_identity
                 (new_identity (next_oid st) phone payload now_insert) st),
         inr (CREATED phone))
    end.
Proof.
  intros phone Hv Hf Hk. rewrite register_identity_run. cbv zeta.
  fold phone. apply gate_spec in Hv. rewrite Hv, Hf, Hk.
  cbn [negb]. unfold insert_identity, new_identity. rewrite Hf.
  now destruct (find_one _ (identity st)).
Qed.

Lemma find_one_filter {D} (p : D -> bool) (c : list D) :
  find_one p c = next_or_none (filter p c).
Proof.
  unfold find_one. induction c as [|d c IH]; simpl; [reflexivity|].
  now destruct (p d).
Qed.

End Register.

(** C1. [register_identity] writes an identity only behind the gate.
    If the phone has no session, or its latest session is not verified,
    it fails with PhoneNotVerified and returns the store it was given;
    and whenever the identity collection it returns differs from the one
    it was given, the latest session of the phone is verified. *)
Theorem register_requires_verified_session {unicode : UnicodeCase}
    (st : Store) (payload : RegisterIdentityRequest)
    (now_update now_insert : datetime) :
  let phone := normalize_phone (reg_phone payload) in
  let run := register_identity (Some st) payload now_update now_insert in
  (latest_session phone st = None -> run = (Some st, inl PhoneNotVerified))
  /\ (forall rec,
        latest_session phone st = Some rec ->
        otp_verified rec <> Some true ->
        run = (Some st, inl PhoneNotVerified))
  /\ (forall st',
        fst run = Some st' -> identity st' <> identity st ->
        exists rec, latest_session phone st = Some rec
                    /\ otp_verified rec = Some true).
Proof.
  intros phone run. subst run. rewrite register_identity_run. cbv zeta.
  fold phone. repeat split.
  - now intros ->.
  - intros rec -> Hv.
    destruct (not_verified rec) eqn:E; [reflexivity|].
    now apply not_verified_false in E.
  - intros st'.
    destruct (match latest_session phone st with
              | None => true
              | Some rec => not_verified rec
              end) eqn:G.
    + cbn [fst]. intros [= <-] Hne. now destruct Hne.
    + intros _ _. now apply gate_spec in G.
Qed.

(** A started, unverified session: no registration. *)
Lemma register_requires_verified_session_witness :
  @register_identity AsciiCase (Some Demo.started)
    (Demo.registration "Aicha Kone" (Some (lit "CI")) true)
    120000000 120000000
  = (Some Demo.started, inl PhoneNotVerified).
Proof.
  apply (proj1 (proj2 (@register_requires_verified_session AsciiCase
           Demo.started
           (Demo.registration "Aicha Kone" (Some (lit "CI")) true)
           120000000 120000000)) (Demo.session false None)).
  - reflexivity.
  - cbn. discriminate.
Defined.

(** C5. The three preconditions are tested in order and the first that
    fails decides: PhoneNotVerified when the phone is not verified,
    whatever the rest of the request; AffirmationRequired when the phone
    is verified and the affirmation is false, whatever the compliance
    check says; ComplianceRejected, with the flags the check raised, when
    the phone is verified, the affirmation true and the check fails.
    Every failure returns the store it was given. *)
Theorem register_precondition_order {unicode : UnicodeCase}
    (st : Store) (payload : RegisterIdentityRequest)
    (now_update now_insert : datetime) :
  let phone := normalize_phone (reg_phone payload) in
  let kyc := kyc_rule_engine (reg_country payload) (reg_name payload)
                             (reg_email payload) in
  let run := register_identity (Some st) payload now_update now_insert in
  (~ phone_verified phone st -> run = (Some st, inl PhoneNotVerified))
  /\ (phone_verified phone st ->
      reg_faith_affirmation payload = false ->
      run = (Some st, inl AffirmationRequired))
  /\ (phone_verified phone st ->
      reg_faith_affirmation payload = true ->
      pass kyc = false ->
      run = (Some st, inl (ComplianceRejected (flags kyc)))
      /\ flags kyc <> [])
  /\ (forall e, snd run = inl e -> fst run = Some st).
Proof.
  intros phone kyc run. subst run. rewrite register_identity_run.
  cbv zeta. fold phone. fold kyc. repeat split.
  - intros H. now rewrite gate_closed.
  - intros Hv Hf. apply gate_spec in Hv. now rewrite Hv, Hf.
  - apply gate_spec in H. now rewrite H, H0, H1.
  - intros Hnil.
    apply (kyc_pass_iff_no_flags (reg_country payload) (reg_name payload)
             (reg_email payload)) in Hnil.
    fold kyc in Hnil. congruence.
  - intros e.
    destruct (match latest_session phone st with
              | None => true
              | Some rec => not_verified rec
              end); [reflexivity|].
    destruct (negb (reg_faith_affirmation payload)); [reflexivity|].
    destruct (negb (pass kyc)); [reflexivity|].
    destruct (find_one _ (identity st)); cbn [snd]; discriminate.
Qed.

(** A verified phone, no affirmation, and a name the compliance check
    would reject: the affirmation is what fails. *)
Lemma register_precondition_order_witness :
  @register_identity AsciiCase (Some Demo.verified)
    (Demo.registration "Test User" (Some (lit "US")) false)
    120000000 120000000
  = (Some Demo.verified, inl AffirmationRequired).
Proof.
  apply (proj1 (proj2 (@register_precondition_order AsciiCase
           Demo.verified
           (Demo.registration "Test User" (Some (lit "US")) false)
           120000000 120000000))).
  - exists (Demo.session true (Some 60000000%Z)). split; reflexivity.
  - reflexivity.
Defined.

Section RegisterWrites.

Context {unicode : UnicodeCase}.

(** The gate reads the same on a store whose expiries were changed. *)
Lemma gate_with_expiry (e : OtpSessionDoc -> option datetime)
    (phone : str) (st : Store) :
  match latest_session phone (with_expiry e st) with
  | None => true
  | Some rec => not_verified rec
  end
  = match latest_session phone st with
    | None => true
    | Some rec => not_verified rec
    end.
Proof.
  unfold with_expiry. rewrite latest_session_map by reflexivity.
  now destruct (latest_session phone st).
Qed.

Lemma NoDup_filter_ids {D} (id : D -> ObjectId) (p : D -> bool)
    (c : list D) :
  NoDup (List.map id c) -> NoDup (List.map id (filter p c)).
Proof.
  induction c as [|d c IH]; simpl; [auto|].
  intros H. inversion H as [|? ? Hn Hc]; subst.
  destruct (p d); simpl; auto. constructor; auto.
  intros Hin. apply Hn. apply in_map_iff in Hin as [x [Hx Hin]].
  apply filter_In in Hin as [Hin _]. rewrite <- Hx. now apply in_map.
Qed.

Lemma update_by_id_others {D} (id : D -> ObjectId) (oid : ObjectId)
    (set : D -> D) (c : list D) :
  ~ In oid (List.map id c) -> update_by_id id oid set c = c.
Proof.
  intros H. unfold update_by_id. erewrite map_ext_in; [apply map_id|].
  intros d Hd. simpl.
  destruct (Nat.eqb_spec (id d) oid) as [E|]; [|reflexivity].
  destruct H. rewrite <- E. now apply in_map.
Qed.

(** Updating by [_id] rewrites the first identity of the phone and no
    other. *)
Lemma identities_of_update (phone : str) (st : Store)
    (payload : RegisterIdentityRequest) (t : datetime)
    (existing : IdentityDoc) (others : list IdentityDoc) :
  NoDup (List.map id_id (identity st)) ->
  identities_of phone st = existing :: others ->
  identities_of phone
    (set_identity
       (update_by_id id_id (id_id existing) (set_profile payload t)
                     (identity st)) st)
  = set_profile payload t existing :: others.
Proof.
  intros Hnd Hids. unfold identities_of in *.
  cbn [identity set_identity]. unfold update_by_id at 1.
  rewrite filter_map_same
    by (intros d; now destruct (Nat.eqb (id_id d) (id_id existing))).
  rewrite Hids. cbn [List.map]. rewrite Nat.eqb_refl. f_equal.
  apply (NoDup_filter_ids id_id
           (fun d => PyStr.eqb (id_phone d) phone)) in Hnd.
  rewrite Hids in Hnd. cbn [List.map] in Hnd.
  inversion Hnd as [|? ? Hn _]; subst.
  exact (update_by_id_others id_id _ _ _ Hn).
Qed.

Lemma update_by_id_length {D} (id : D -> ObjectId) (oid : ObjectId)
    (set : D -> D) (c : list D) :
  List.length (update_by_id id oid set c) = List.length c.
Proof. apply length_map. Qed.

End RegisterWrites.

(** C9. [register_identity] never answers Expired, and its answer does
    not depend on the [expires_at] of any session: with every expiry
    replaced, by whatever, the answer is the same.  So whenever the
    latest session of the phone is verified the first gate is passed,
    also with the clock past the expiry of that session, and the
    registration succeeds if the other two gates let it. *)
Theorem register_ignores_expiry {unicode : UnicodeCase}
    (st : Store) (payload : RegisterIdentityRequest)
    (now_update now_insert : datetime) :
  let phone := normalize_phone (reg_phone payload) in
  let kyc := kyc_rule_engine (reg_country payload) (reg_name payload)
                             (reg_email payload) in
  let run := register_identity (Some st) payload now_update now_insert in
  snd run <> inl Expired
  /\ (forall e,
        snd (register_identity (Some (with_expiry e st)) payload
                               now_update now_insert)
        = snd run)
  /\ (phone_verified phone st -> snd run <> inl PhoneNotVerified)
  /\ (phone_verified phone st ->
      reg_faith_affirmation payload = true ->
      pass kyc = true ->
      snd run = inr (CREATED phone) \/ snd run = inr (UPDATED phone)).
Proof.
  intros phone kyc run. subst run. repeat split.
  - rewrite register_identity_run. cbv zeta.
    destruct (match latest_session _ st with
              | None => true
              | Some rec => not_verified rec
              end); [discriminate|].
    destruct (negb (reg_faith_affirmation payload)); [discriminate|].
    destruct (negb (pass _)); [discriminate|].
    destruct (find_one _ (identity st)); discriminate.
  - intros e. rewrite !register_identity_run. cbv zeta.
    rewrite gate_with_expiry.
    destruct (match latest_session _ st with
              | None => true
              | Some rec => not_verified rec
              end); [reflexivity|].
    destruct (negb (reg_faith_affirmation payload)); [reflexivity|].
    destruct (negb (pass _)); [reflexivity|].
    cbn [with_expiry identity set_otpsession].
    destruct (find_one _ (identity st)); reflexivity.
  - intros Hv. rewrite register_identity_run. cbv zeta. fold phone.
    apply gate_spec in Hv. rewrite Hv.
    destruct (negb (reg_faith_affirmation payload)); [discriminate|].
    destruct (negb (pass _)); [discriminate|].
    destruct (find_one _ (identity st)); discriminate.
  - intros Hv Hf Hk.
    rewrite register_identity_write by assumption.
    fold phone. destruct (find_one _ (identity st)); auto.
Qed.

(** A session verified after one minute, a registration after a quarter
    of an hour: ten minutes past the expiry, and accepted. *)
Lemma register_ignores_expiry_witness :
  otp_expires_at (Demo.session true (Some 60000000%Z)) = Some 300000000%Z
  /\ (300000000 < 900000000)%Z
  /\ (snd (@register_identity AsciiCase (Some Demo.verified)
             (Demo.registration "Aicha Kone" (Some (lit "CI")) true)
             900000000 900000000)
      = inr (CREATED Demo.phone)
      \/ snd (@register_identity AsciiCase (Some Demo.verified)
                (Demo.registration "Aicha Kone" (Some (lit "CI")) true)
                900000000 900000000)
         = inr (UPDATED Demo.phone)).
Proof.
  split; [reflexivity|]. split; [lia|].
  apply (proj2 (proj2 (proj2 (@register_ignores_expiry AsciiCase
           Demo.verified
           (Demo.registration "Aicha Kone" (Some (lit "CI")) true)
           900000000 900000000)))).
  - exists (Demo.session true (Some 60000000%Z)). split; reflexivity.
  - reflexivity.
  - reflexivity.
Defined.

(** The write of [register_identity] behind the gates, in the words of
    the source: [set_profile] on the first identity of the phone, or the
    insertion of [new_identity]. *)
Lemma register_identity_upsert {unicode : UnicodeCase}
    (st : Store) (payload : RegisterIdentityRequest)
    (now_update now_insert : datetime) :
  let phone := normalize_phone (reg_phone payload) in
  let run := register_identity (Some st) payload now_update now_insert in
  let created :=
    insert_identity (new_identity (next_oid st) phone payload now_insert)
                    st in
  wf st ->
  phone_verified phone st ->
  reg_faith_affirmation payload = true ->
  pass (kyc_rule_engine (reg_country payload) (reg_name payload)
                        (reg_email payload)) = true ->
  (identities_of phone st = [] ->
   run = (Some created, inr (CREATED phone))
   /\ identities_of phone created
      = [new_identity (next_oid st) phone payload now_insert])
  /\ (forall existing others,
        identities_of phone st = existing :: others ->
        let updated :=
          set_identity
            (update_by_id id_id (id_id existing)
                          (set_profile payload now_update) (identity st))
            st in
        run = (Some updated, inr (UPDATED phone))
        /\ identities_of phone updated
           = set_profile payload now_update existing :: others
        /\ List.length (identity updated) = List.length (identity st))
  /\ (identities_of phone st = [] ->
      forall payload2 now_update2 now_insert2,
        normalize_phone (reg_phone payload2) = phone ->
        reg_faith_affirmation payload2 = true ->
        pass (kyc_rule_engine (reg_country payload2) (reg_name payload2)
                              (reg_email payload2)) = true ->
        exists st2,
          run = (Some created, inr (CREATED phone))
          /\ register_identity (Some created) payload2 now_update2
                               now_insert2
             = (Some st2, inr (UPDATED phone))
          /\ identities_of phone st2
             = [set_profile payload2 now_update2
                  (new_identity (next_oid st) phone payload now_insert)]).
Proof.
  intros phone run created Hwf Hv Hf Hk.
  assert (Hrun : forall s p t1 t2,
             wf s ->
             phone_verified (normalize_phone (reg_phone p)) s ->
             reg_faith_affirmation p = true ->
             pass (kyc_rule_engine (reg_country p) (reg_name p)
                                   (reg_email p)) = true ->
             let ph := normalize_phone (reg_phone p) in
             (identities_of ph s = [] ->
              register_identity (Some s) p t1 t2
              = (Some (insert_identity
                         (new_identity (next_oid s) ph p t2) s),
                 inr (CREATED ph)))
             /\ (forall ex rest,
                   identities_of ph s = ex :: rest ->
                   register_identity (Some s) p t1 t2
                   = (Some (set_identity
                              (update_by_id id_id (id_id ex)
                                 (set_profile p t1) (identity s)) s),
                      inr (UPDATED ph)))).
  { intros s p t1 t2 Hs Hpv Hpf Hpk ph.
    rewrite register_identity_write by assumption. fold ph.
    rewrite find_one_filter. fold (identities_of ph s). split.
    - now intros ->.
    - intros ex rest ->. cbn [next_or_none].
      now rewrite update_one_by_id by exact (wf_id_unique Hs). }
  assert (Hcreated : identities_of phone st = [] ->
            identities_of phone created
            = [new_identity (next_oid st) phone payload now_insert]).
  { intros Hnone. unfold identities_of, created in *.
    cbn [identity insert_identity]. rewrite filter_app, Hnone.
    cbn [filter id_phone new_identity app].
    now rewrite PyStrFacts.eqb_refl. }
  destruct (Hrun st payload now_update now_insert Hwf Hv Hf Hk)
    as [Hnew Hupd]. fold phone in Hnew, Hupd. fold created in Hnew.
  split; [|split].
  - intros Hnone. split; [now apply Hnew | now apply Hcreated].
  - intros existing others Hids updated. split; [|split].
    + now apply (Hupd existing others).
    + now apply identities_of_update; [apply (wf_id_unique Hwf)|].
    + apply update_by_id_length.
  - intros Hnone payload2 t1 t2 Hp2 Hf2 Hk2.
    assert (Hwf1 : wf created).
    { apply (@wf_register_identity unicode st created payload
               now_update now_insert Hwf).
      fold run. unfold run. now rewrite (Hnew Hnone). }
    assert (Hv1 : phone_verified (normalize_phone (reg_phone payload2))
                                 created).
    { rewrite Hp2. destruct Hv as [rec [Hl Hr]]. exists rec.
      split; [|exact Hr].
      now rewrite (latest_session_otpsession phone st created eq_refl). }
    destruct (Hrun created payload2 t1 t2 Hwf1 Hv1 Hf2 Hk2) as [_ Hupd1].
    rewrite Hp2 in Hupd1.
    specialize (Hupd1 _ _ (Hcreated Hnone)).
    eexists. split; [now apply Hnew|]. split; [exact Hupd1|].
    now apply identities_of_update;
      [apply (wf_id_unique Hwf1) | apply Hcreated].
Qed.

(** C4, as the code has it.  For a phone whose latest session is
    verified and a request that passes the affirmation and compliance
    gates: when the phone has no identity, [register_identity] appends
    one, with the phone, name, email and country of the request, the
    affirmation, the clock of the insertion as [created_at] and no
    [updated_at], and answers CREATED; when it has one, the first
    identity of the phone, and no other document, gets the name, email
    and country of the request, the affirmation, and the clock of the
    update as [updated_at], keeping its [_id], phone and [created_at],
    no document is added, and the answer is UPDATED.  Hence two such
    registrations in a row for a phone without identity answer CREATED
    then UPDATED, and leave exactly one identity of the phone: the one
    inserted, with the name, email, country and [updated_at] of the
    second request. *)
Theorem register_creates_then_updates {unicode : UnicodeCase}
    (st : Store) (payload : RegisterIdentityRequest)
    (now_update now_insert : datetime) :
  let phone := normalize_phone (reg_phone payload) in
  let run := register_identity (Some st) payload now_update now_insert in
  let inserted :=
    {| id_id := next_oid st;
       id_phone := phone;
       id_name := reg_name payload;
       id_email := reg_email payload;
       id_country := reg_country payload;
       id_faith_affirmation := true;
       id_created_at := now_insert;
       id_updated_at := None |} in
  let rewritten (p : RegisterIdentityRequest) (t : datetime)
                (d : IdentityDoc) :=
    {| id_id := id_id d;
       id_phone := id_phone d;
       id_name := reg_name p;
       id_email := reg_email p;
       id_country := reg_country p;
       id_faith_affirmation := true;
       id_created_at := id_created_at d;
       id_updated_at := Some t |} in
  let created :=
    {| otpsession := otpsession st;
       identity := identity st ++ [inserted];
       next_oid := S (next_oid st) |} in
  wf st ->
  phone_verified phone st ->
  reg_faith_affirmation payload = true ->
  pass (kyc_rule_engine (reg_country payload) (reg_name payload)
                        (reg_email payload)) = true ->
  (identities_of phone st = [] ->
   run = (Some created, inr (CREATED phone))
   /\ identities_of phone created = [inserted])
  /\ (forall existing others,
        identities_of phone st = existing :: others ->
        let updated :=
          {| otpsession := otpsession st;
             identity :=
               List.map
                 (fun d => if Nat.eqb (id_id d) (id_id existing)
                           then rewritten payload now_update d else d)
                 (identity st);
             next_oid := next_oid st |} in
        run = (Some updated, inr (UPDATED phone))
        /\ identities_of phone updated
           = rewritten payload now_update existing :: others
        /\ List.length (identity updated) = List.length (identity st))
  /\ (identities_of phone st = [] ->
      forall payload2 now_update2 now_insert2,
        normalize_phone (reg_phone payload2) = phone ->
        reg_faith_affirmation payload2 = true ->
        pass (kyc_rule_engine (reg_country payload2) (reg_name payload2)
                              (reg_email payload2)) = true ->
        exists st2,
          run = (Some created, inr (CREATED phone))
          /\ register_identity (Some created) payload2 now_update2
                               now_insert2
             = (Some st2, inr (UPDATED phone))
          /\ identities_of phone st2
             = [rewritten payload2 now_update2 inserted]).
Proof.
  intros phone run inserted rewritten created Hwf Hv Hf Hk.
  assert (Eins : new_identity (next_oid st) phone payload now_insert
                 = inserted).
  { unfold new_identity, inserted. now rewrite Hf. }
  assert (Erew : forall p t d,
             reg_faith_affirmation p = true ->
             set_profile p t d = rewritten p t d).
  { intros p t d Hp. unfold set_profile, rewritten. now rewrite Hp. }
  assert (Emap : forall p t oid c,
             reg_faith_affirmation p = true ->
             update_by_id id_id oid (set_profile p t) c
             = List.map (fun d => if Nat.eqb (id_id d) oid
                                  then rewritten p t d else d) c).
  { intros p t oid c Hp. unfold update_by_id. apply map_ext.
    intros d. now rewrite (Erew p t d Hp). }
  destruct (@register_identity_upsert unicode st payload now_update
              now_insert Hwf Hv Hf Hk) as (Hcr & Hupd & Htwice).
  fold phone in Hcr, Hupd, Htwice. fold run in Hcr, Hupd, Htwice.
  rewrite Eins in Hcr, Htwice.
  change (insert_identity inserted st) with created in Hcr, Htwice.
  split; [exact Hcr|]. split.
  - intros existing others Hids.
    destruct (Hupd existing others Hids) as (H1 & H2 & H3).
    rewrite (Emap payload now_update (id_id existing) (identity st) Hf)
      in H1, H2, H3.
    rewrite (Erew payload now_update existing Hf) in H2.
    repeat split; assumption.
  - intros Hnone payload2 t1 t2 Hp2 Hf2 Hk2.
    destruct (Htwice Hnone payload2 t1 t2 Hp2 Hf2 Hk2)
      as (st2 & H1 & H2 & H3).
    exists st2. rewrite (Erew payload2 t1 inserted Hf2) in H3.
    repeat split; assumption.
Qed.

(** The spec's example: a first registration, then a second one under
    another name. *)
Lemma register_creates_then_updates_witness :
  exists st2,
    @register_identity AsciiCase (Some Demo.verified)
      (Demo.registration "Aicha Kone" (Some (lit "CI")) true)
      120000000 120000000
    = (Some Demo.registered, inr (CREATED Demo.phone))
    /\ @register_identity AsciiCase (Some Demo.registered)
         (Demo.registration "Awa Kone" (Some (lit "CI")) true)
         180000000 180000000
       = (Some st2, inr (UPDATED Demo.phone))
    /\ identities_of Demo.phone st2
       = [Demo.registered_doc "Awa Kone" (Some 180000000%Z)].
Proof.
  assert (Hwf : wf Demo.verified).
  { split; cbn; repeat constructor; intros []. }
  assert (Hv : phone_verified Demo.phone Demo.verified).
  { exists (Demo.session true (Some 60000000%Z)). split; reflexivity. }
  exact (proj2 (proj2 (@register_creates_then_updates AsciiCase
           Demo.verified
           (Demo.registration "Aicha Kone" (Some (lit "CI")) true)
           120000000 120000000 Hwf Hv eq_refl eq_refl))
           eq_refl
           (Demo.registration "Awa Kone" (Some (lit "CI")) true)
           180000000%Z 180000000%Z eq_refl eq_refl eq_refl).
Defined.

(** C4 as stated fails on a verified phone without identity when the
    request does not affirm: nothing is inserted and the answer is not
    CREATED. *)
Lemma register_created_counterexample :
  let payload := Demo.registration "Aicha Kone" (Some (lit "CI")) false in
  let phone := normalize_phone (reg_phone payload) in
  phone_verified phone Demo.verified
  /\ identities_of phone Demo.verified = []
  /\ @register_identity AsciiCase (Some Demo.verified) payload
       120000000 120000000
     = (Some Demo.verified, inl AffirmationRequired)
  /\ snd (@register_identity AsciiCase (Some Demo.verified) payload
            120000000 120000000)
     <> inr (CREATED phone).
Proof.
  cbv zeta. split; [|split; [|split]].
  - exists (Demo.session true (Some 60000000%Z)). split; reflexivity.
  - reflexivity.
  - reflexivity.
  - discriminate.
Qed.

(* ================================================================== *)
(** ** Start of a session *)
(* ================================================================== *)

Module RandintFacts.

Open Scope Z_scope.



End RandintFacts.




(* ================================================================== *)
(** ** More on [normalize_phone] *)
(* ================================================================== *)

Module NormalizeMore.

Import NormalizeFacts.

Lemma lstrip_nil_iff (l : str) : lstrip l = [] <-> blank l = true.
Proof.
  unfold blank. induction l as [|c l IH]; simpl; [tauto|].
  destruct (isspace c); simpl; [exact IH|]. split; discriminate.
Qed.

Lemma blank_rev (l : str) : blank (rev l) = blank l.
Proof.
  unfold blank. destruct (forallb isspace l) eqn:E.
  - apply forallb_forall. intros c Hc. apply in_rev in Hc.
    rewrite forallb_forall in E. now apply E.
  - apply not_true_iff_false. intros H. apply not_true_iff_false in E.
    apply E, forallb_forall. intros c Hc. rewrite forallb_forall in H.
    apply H. now apply in_rev in Hc.
Qed.

Lemma strip_nil_iff (s : str) : strip s = [] <-> blank s = true.
Proof.
  unfold strip, rstrip. split.
  - intros H. apply (f_equal (@rev char)) in H.
    rewrite rev_involutive in H. cbn [rev] in H.
    apply lstrip_nil_iff in H. rewrite blank_rev in H.
    pose proof (lstrip_no_leading_space s) as Hh.
    destruct (lstrip s) as [|c t] eqn:E.
    + now apply lstrip_nil_iff.
    + simpl in Hh, H. apply negb_true_iff in Hh. now rewrite Hh in H.
  - intros H. apply lstrip_nil_iff in H. now rewrite H.
Qed.

Lemma cleaned_nil_iff (s : str) : cleaned s = [] <-> blank s = true.
Proof.
  rewrite <- strip_nil_iff. unfold cleaned. rewrite replace1_space.
  pose proof (strip_trimmed s) as Ht. split.
  - intros H. destruct (strip s) as [|c t]; [reflexivity|].
    unfold trimmed in Ht. apply andb_true_iff in Ht as [Hh _].
    simpl in Hh. apply negb_true_iff in Hh.
    simpl in H. now rewrite (space_is_space _ Hh) in H.
  - now intros ->.
Qed.

Lemma lstrip_length (s : str) : (List.length (lstrip s) <= List.length s)%nat.
Proof.
  induction s as [|c s IH]; simpl; [lia|].
  destruct (isspace c); simpl; lia.
Qed.

Lemma cleaned_length (s : str) :
  (List.length (cleaned s) <= List.length s)%nat.
Proof.
  unfold cleaned, strip, rstrip. rewrite replace1_space.
  etransitivity; [apply filter_length_le|].
  rewrite length_rev.
  etransitivity; [apply lstrip_length|].
  rewrite length_rev. apply lstrip_length.
Qed.

Lemma cleaned_cons (c : char) (x : str) :
  isspace c = false ->
  cleaned (c :: x)
  = c :: filter (fun a => negb (char_eqb a SPACE)) (rstrip x).
Proof.
  intros Hc. unfold cleaned, strip. cbn [lstrip]. rewrite Hc.
  rewrite (rstrip_cons _ _ Hc), replace1_space. cbn [filter].
  now rewrite (space_is_space _ Hc).
Qed.

End NormalizeMore.

(** X1. The prefixes "00" and "+" are interchangeable: a number written
    with a leading "00" normalises to what the same number written with a
    leading "+" normalises to. *)
Theorem normalize_phone_00_is_plus (x : str) :
  normalize_phone (lit "00" ++ x) = normalize_phone (lit "+" ++ x).
Proof.
  rewrite !NormalizeFacts.normalize_phone_cases.
  cbn [lit List.map list_ascii_of_string app].
  change (N_of_ascii "0") with 48%N. change (N_of_ascii "+") with 43%N.
  rewrite !NormalizeMore.cleaned_cons by reflexivity.
  rewrite NormalizeFacts.rstrip_cons by reflexivity.
  cbn. now destruct (filter _ (rstrip x)).
Qed.

(** X2. Whatever the input, the result of [normalize_phone] has no
    whitespace at either end, does not start with "00", and is not
    longer than the input. *)
Theorem normalize_phone_shape (s : str) :
  trimmed (normalize_phone s) = true
  /\ startswith (normalize_phone s) (lit "00") = false
  /\ (List.length (normalize_phone s) <= List.length s)%nat.
Proof.
  split; [apply NormalizeFacts.normalize_phone_trimmed|].
  split; [apply NormalizeFacts.normalize_phone_no_00|].
  rewrite NormalizeFacts.normalize_phone_cases.
  pose proof (NormalizeMore.cleaned_length s) as Hl.
  destruct (startswith (cleaned s) (lit "00")) eqn:E; [|exact Hl].
  apply PyStrFacts.startswith_spec in E as [post E].
  rewrite E in *. cbn in Hl |- *. lia.
Qed.

(** X3. [normalize_phone] returns the empty string exactly on the inputs
    that are empty or hold nothing but whitespace; no other input is
    rejected or emptied. *)
Theorem normalize_phone_empty_iff (s : str) :
  normalize_phone s = [] <-> blank s = true.
Proof.
  rewrite <- NormalizeMore.cleaned_nil_iff.
  rewrite NormalizeFacts.normalize_phone_cases.
  destruct (startswith (cleaned s) (lit "00")) eqn:E; [|reflexivity].
  split; [discriminate|]. intros H. rewrite H in E. discriminate E.
Qed.

(* ================================================================== *)
(** ** One call at a time *)
(* ================================================================== *)

Section Calls.

Context {unicode : UnicodeCase}.

(** [normalize_phone] twice is [normalize_phone] once. *)
Lemma normalize_phone_twice (s : str) :
  normalize_phone (normalize_phone s) = normalize_phone s.
Proof.
  rewrite (NormalizeFacts.normalize_phone_cases (normalize_phone s)).
  rewrite (NormalizeFacts.cleaned_fixed _
             (NormalizeFacts.normalize_phone_trimmed s)
             (NormalizeFacts.normalize_phone_spaceless s)).
  now rewrite NormalizeFacts.normalize_phone_no_00.
Qed.

(** What a call of [start_otp] leaves. *)
Lemma start_otp_store (st st' : Store) payload randint now now_insert :
  fst (start_otp (Some st) payload randint now now_insert) = Some st' ->
  st' = {| otpsession :=
             otpsession st ++
             [{| otp_id := next_oid st;
                 otp_phone := normalize_phone (start_phone payload);
                 otp_code := Some (format_int (random_randint 100000 999999 randint));
                 otp_expires_at := Some (now + timedelta_minutes 5)%Z;
                 otp_verified := Some false;
                 otp_created_at := now_insert;
                 otp_updated_at := None |}];
           identity := identity st;
           next_oid := S (next_oid st) |}.
Proof. rewrite start_otp_run. cbn [fst]. now intros [= <-]. Qed.

(** What a call of [verify_otp] leaves: the store it was given, or the
    latest session of the phone rewritten. *)
Lemma verify_otp_store (st st' : Store) payload now now_update :
  fst (verify_otp (Some st) payload now now_update) = Some st' ->
  st' = st
  \/ exists rec,
       latest_session (normalize_phone (verify_phone payload)) st = Some rec
       /\ snd (verify_otp (Some st) payload now now_update)
          = inr {| status := lit "VERIFIED";
                   resp_phone := normalize_phone (verify_phone payload) |}
       /\ st' = set_otpsession
                  (update_one (fun d => Nat.eqb (otp_id d) (otp_id rec))
                              (set_verified now_update) (otpsession st)) st.
Proof.
  rewrite verify_otp_run. cbv zeta.
  destruct (latest_session _ st) as [rec|]; [|intros [= <-]; now left].
  destruct (now >? get_expires_at rec now)%Z; [intros [= <-]; now left|].
  destruct (code_differs _ rec); [intros [= <-]; now left|].
  cbn [fst snd]. intros [= <-]. right. now exists rec.
Qed.

(** What a call of [register_identity] leaves: the store it was given,
    or, the three gates passed, the first identity of the phone rewritten
    or a new identity appended. *)
Lemma register_identity_store (st st' : Store) payload now_update
    now_insert :
  let phone := normalize_phone (reg_phone payload) in
  let passed :=
    phone_verified phone st
    /\ reg_faith_affirmation payload = true
    /\ pass (kyc_rule_engine (reg_country payload) (reg_name payload)
                             (reg_email payload)) = true in
  fst (register_identity (Some st) payload now_update now_insert)
  = Some st' ->
  st' = st
  \/ (passed
      /\ exists existing others,
           identities_of phone st = existing :: others
           /\ st' = set_identity
                      (update_one
                         (fun d => Nat.eqb (id_id d) (id_id existing))
                         (set_profile payload now_update) (identity st)) st)
  \/ (passed
      /\ identities_of phone st = []
      /\ st' = insert_identity
                 (new_identity (next_oid st) phone payload now_insert) st).
Proof.
  intros phone passed. subst passed. rewrite register_identity_run.
  cbv zeta. fold phone.
  destruct (match latest_session phone st with
            | None => true
            | Some rec => not_verified rec
            end) eqn:G; [intros [= <-]; now left|].
  apply gate_spec in G.
  destruct (reg_faith_affirmation payload) eqn:F; cbn [negb];
    [|intros [= <-]; now left].
  destruct (pass _) eqn:K; cbn [negb]; [|intros [= <-]; now left].
  rewrite find_one_filter. fold (identities_of phone st).
  destruct (identities_of phone st) as [|ex rest] eqn:E; cbn [next_or_none fst];
    intros [= <-]; right.
  - right. repeat split; auto.
    unfold insert_identity, new_identity. now rewrite F.
  - left. repeat split; auto. now exists ex, rest.
Qed.

(** *** Lists under [update_one] *)

Lemma update_one_In {D} (m : D -> bool) (set : D -> D) (c : list D)
    (d : D) :
  In d c -> In d (update_one m set c) \/ In (set d) (update_one m set c).
Proof.
  induction c as [|x c IH]; simpl; [tauto|].
  intros [->|Hin]; destruct (m _) eqn:E; simpl; auto.
  destruct (IH Hin); auto.
Qed.

Lemma update_one_In_inv {D} (m : D -> bool) (set : D -> D) (c : list D)
    (d' : D) :
  In d' (update_one m set c) ->
  In d' c \/ exists d, In d c /\ d' = set d.
Proof.
  induction c as [|x c IH]; simpl; [tauto|].
  destruct (m x); simpl.
  - intros [<-|Hin]; [right; exists x|]; auto.
  - intros [<-|Hin]; auto. destruct (IH Hin) as [H|[d [H1 H2]]]; auto.
    right. exists d. auto.
Qed.

Lemma update_one_Forall {D} (P : D -> Prop) (m : D -> bool) (set : D -> D)
    (c : list D) :
  (forall d, P d -> P (set d)) ->
  Forall P c -> Forall P (update_one m set c).
Proof.
  intros Hs. induction 1 as [|d c Hd Hc IH]; simpl; [constructor|].
  destruct (m d); constructor; auto.
Qed.

Lemma update_one_length {D} (m : D -> bool) (set : D -> D) (c : list D) :
  List.length (update_one m set c) = List.length c.
Proof.
  induction c as [|d c IH]; simpl; [reflexivity|].
  destruct (m d); simpl; now rewrite ?IH.
Qed.

Lemma update_one_filter_length {D} (p m : D -> bool) (set : D -> D)
    (c : list D) :
  (forall d, p (set d) = p d) ->
  List.length (filter p (update_one m set c)) = List.length (filter p c).
Proof.
  intros Hs. induction c as [|d c IH]; simpl; [reflexivity|].
  destruct (m d); simpl.
  - rewrite Hs. now destruct (p d).
  - destruct (p d); simpl; now rewrite IH.
Qed.

(** A rewrite that leaves alone what a filter selects does not show
    through the filter. *)
Lemma filter_map_fixed {D} (p : D -> bool) (f : D -> D) (c : list D) :
  (forall d, In d c -> p (f d) = p d) ->
  (forall d, In d c -> p d = true -> f d = d) ->
  filter p (List.map f c) = filter p c.
Proof.
  induction c as [|x c IH]; simpl; [reflexivity|].
  intros H1 H2. rewrite (H1 x (or_introl eq_refl)).
  destruct (p x) eqn:E.
  - rewrite (H2 x (or_introl eq_refl) E). f_equal.
    apply IH; intros; [apply H1 | apply H2]; auto.
  - apply IH; intros; [apply H1 | apply H2]; auto.
Qed.

Lemma unique_id {D} (id : D -> ObjectId) (c : list D) (a b : D) :
  NoDup (List.map id c) -> In a c -> In b c -> id a = id b -> a = b.
Proof.
  induction c as [|x c IH]; simpl; [tauto|].
  intros Hnd. inversion Hnd as [|? ? Hn Hc]; subst.
  intros [->|Ha] [->|Hb] E; auto.
  - destruct Hn. rewrite E. now apply in_map.
  - destruct Hn. rewrite <- E. now apply in_map.
Qed.

Lemma identities_of_app (phone : str) (st : Store) (d : IdentityDoc) :
  identities_of phone (insert_identity d st)
  = identities_of phone st
    ++ (if PyStr.eqb (id_phone d) phone then [d] else []).
Proof.
  unfold identities_of, insert_identity. cbn [identity].
  rewrite filter_app. cbn [filter]. now destruct (PyStr.eqb _ phone).
Qed.

End Calls.

(* ================================================================== *)
(** ** Reading an identity back *)
(* ================================================================== *)

Lemma get_identity_run (st : Store) (phone : str) :
  get_identity (Some st) phone =
    match identities_of (normalize_phone phone) st with
    | [] => (Some st, inl IdentityNotFound)
    | d :: _ => (Some st, inr (without_id d))
    end.
Proof.
  unfold get_identity, require_db, bind, gets.
  rewrite find_one_filter. fold (identities_of (normalize_phone phone) st).
  now destruct (identities_of _ st).
Qed.

(** X4. [get_identity] never writes; it fails, with 404 "Identity not
    found", exactly when no identity has the normalised phone; what it
    returns is an identity of the store, without its [_id], whose phone
    is the normalised phone; and it answers the same for a phone and for
    its normalised form, so that "00..." and "+..." read the same
    identity. *)
Theorem get_identity_reads (st : Store) (phone : str) :
  fst (get_identity (Some st) phone) = Some st
  /\ (snd (get_identity (Some st) phone) = inl IdentityNotFound
      <-> identities_of (normalize_phone phone) st = [])
  /\ (forall v,
        snd (get_identity (Some st) phone) = inr v ->
        view_phone v = normalize_phone phone
        /\ exists d, In d (identity st) /\ v = without_id d)
  /\ get_identity (Some st) (normalize_phone phone)
     = get_identity (Some st) phone
  /\ (forall x,
        get_identity (Some st) (lit "00" ++ x)
        = get_identity (Some st) (lit "+" ++ x)).
Proof.
  split; [|split; [|split; [|split]]].
  - rewrite get_identity_run. now destruct (identities_of _ st).
  - rewrite get_identity_run.
    destruct (identities_of _ st); cbn [snd]; split; congruence.
  - intros v. rewrite get_identity_run.
    destruct (identities_of _ st) as [|d l] eqn:E; cbn [snd];
      [discriminate|].
    intros [= <-].
    assert (Hin : In d (identities_of (normalize_phone phone) st))
      by (rewrite E; now left).
    apply filter_In in Hin as [Hin Hp]. apply PyStrFacts.eqb_eq in Hp.
    split; [exact Hp | now exists d].
  - now rewrite !get_identity_run, normalize_phone_twice.
  - intros x. rewrite !get_identity_run.
    rewrite !NormalizeFacts.normalize_phone_cases.
    cbn [lit List.map list_ascii_of_string app].
    rewrite !NormalizeMore.cleaned_cons by reflexivity.
    rewrite NormalizeFacts.rstrip_cons by reflexivity.
    cbn. now destruct (filter _ (rstrip x)).
Qed.

(** X5. After a registration that passes the three gates, whether it
    created the identity or updated it, [get_identity] of any spelling
    of the phone returns the profile just registered: the name, email and
    country of the request, the affirmation, and the normalised phone. *)
Theorem register_then_get_identity {unicode : UnicodeCase}
    (st : Store) (payload : RegisterIdentityRequest)
    (now_update now_insert : datetime) (spelling : str) :
  let phone := normalize_phone (reg_phone payload) in
  wf st ->
  phone_verified phone st ->
  reg_faith_affirmation payload = true ->
  pass (kyc_rule_engine (reg_country payload) (reg_name payload)
                        (reg_email payload)) = true ->
  normalize_phone spelling = phone ->
  exists st' v,
    fst (register_identity (Some st) payload now_update now_insert)
    = Some st'
    /\ get_identity (Some st') spelling = (Some st', inr v)
    /\ view_phone v = phone
    /\ view_name v = reg_name payload
    /\ view_email v = reg_email payload
    /\ view_country v = reg_country payload
    /\ view_faith_affirmation v = true.
Proof.
  intros phone Hwf Hv Hf Hk Hs.
  rewrite register_identity_write by assumption. fold phone.
  rewrite find_one_filter. fold (identities_of phone st).
  destruct (identities_of phone st) as [|ex rest] eqn:E; cbn [next_or_none].
  - eexists. eexists. cbn [fst]. split; [reflexivity|].
    rewrite get_identity_run, Hs, identities_of_app, E.
    cbn [new_identity id_phone]. rewrite PyStrFacts.eqb_refl.
    cbn [app]. split; [reflexivity|]. cbn. repeat split; auto.
  - eexists. eexists. cbn [fst]. split; [reflexivity|].
    rewrite update_one_by_id by exact (wf_id_unique Hwf).
    rewrite get_identity_run, Hs.
    rewrite (identities_of_update phone st payload now_update
               (wf_id_unique Hwf) E).
    split; [reflexivity|]. cbn. repeat split; auto.
    assert (Hin : In ex (identities_of phone st)) by (rewrite E; now left).
    apply filter_In in Hin as [_ Hp]. now apply PyStrFacts.eqb_eq in Hp.
Qed.

(** The spec's registration, read back under the "00" spelling. *)
Lemma register_then_get_identity_witness :
  exists st' v,
    fst (@register_identity AsciiCase (Some Demo.verified)
           (Demo.registration "Aicha Kone" (Some (lit "CI")) true)
           120000000 120000000)
    = Some st'
    /\ get_identity (Some st') (lit "00225 07 00 00 00 01")
       = (Some st', inr v)
    /\ view_phone v = Demo.phone
    /\ view_name v = lit "Aicha Kone"
    /\ view_email v = lit "a@x.com"
    /\ view_country v = Some (lit "CI")
    /\ view_faith_affirmation v = true.
Proof.
  assert (Hwf : wf Demo.verified).
  { split; cbn; repeat constructor; intros []. }
  assert (Hv : phone_verified Demo.phone Demo.verified).
  { exists (Demo.session true (Some 60000000%Z)). split; reflexivity. }
  exact (@register_then_get_identity AsciiCase Demo.verified
           (Demo.registration "Aicha Kone" (Some (lit "CI")) true)
           120000000 120000000 (lit "00225 07 00 00 00 01")
           Hwf Hv eq_refl eq_refl eq_refl).
Defined.

(* ================================================================== *)
(** ** What the endpoints keep true of the store *)
(* ================================================================== *)

Section Invariants.

Context {unicode : UnicodeCase}.

(** A property of the store that the empty store has and every call
    keeps holds of every store the endpoints produce. *)
Lemma reachable_ind_step (P : Store -> Prop) :
  P empty_store ->
  (forall st st', reachable st -> P st -> step st st' -> P st') ->
  forall st, reachable st -> P st.
Proof.
  intros H0 Hs st. induction 1; auto.
  - eapply Hs; eauto. eapply step_start; eauto.
  - eapply Hs; eauto. eapply step_verify; eauto.
  - eapply Hs; eauto. eapply step_register; eauto.
Qed.

Lemma set_profile_admitted (payload : RegisterIdentityRequest)
    (t : datetime) (d : IdentityDoc) :
  reg_faith_affirmation payload = true ->
  pass (kyc_rule_engine (reg_country payload) (reg_name payload)
                        (reg_email payload)) = true ->
  admitted d -> admitted (set_profile payload t d).
Proof. intros Hf Hk (_ & _ & Hp). now repeat split. Qed.

End Invariants.

(** X6. One identity per phone: in every store the endpoints produce
    from the empty one, no phone has more than one identity. *)
Theorem reachable_one_identity_per_phone {unicode : UnicodeCase}
    (st : Store) :
  reachable st ->
  forall phone, (List.length (identities_of phone st) <= 1)%nat.
Proof.
  intros Hr. pattern st. revert st Hr. apply reachable_ind_step.
  - intros phone. cbn. lia.
  - intros st st' _ IH Hstep phone. destruct Hstep as
      [st st' ? ? ? ? H|st st' ? ? ? H|st st' payload ? ? H].
    + apply start_otp_store in H. subst st'. apply IH.
    + apply verify_otp_store in H as [->|(rec & _ & _ & ->)]; apply IH.
    + apply register_identity_store in H
        as [->|[(_ & ex & rest & _ & ->)|(_ & Hnone & ->)]].
      * apply IH.
      * unfold identities_of. cbn [identity set_identity].
        rewrite update_one_filter_length by reflexivity. apply IH.
      * rewrite identities_of_app. cbn [new_identity id_phone].
        destruct (PyStr.eqb (normalize_phone (reg_phone payload)) phone)
          eqn:E.
        -- apply PyStrFacts.eqb_eq in E. subst phone.
           rewrite Hnone. cbn. lia.
        -- rewrite app_nil_r. apply IH.
Qed.

(** The spec's example, call by call: start, verify, register. *)
Lemma demo_registered_reachable : @reachable AsciiCase Demo.registered.
Proof.
  apply (@reachable_register AsciiCase Demo.verified Demo.registered
           (Demo.registration "Aicha Kone" (Some (lit "CI")) true)
           120000000%Z 120000000%Z); [|reflexivity].
  apply (@reachable_verify AsciiCase Demo.started Demo.verified
           Demo.good_code 60000000%Z 60000000%Z); [|reflexivity].
  apply (@reachable_start AsciiCase empty_store Demo.started
           {| start_phone := Demo.phone |} 482913%Z 0%Z 0%Z);
    [|reflexivity].
  apply reachable_empty.
Qed.

(** The store after the spec's example registration. *)
Lemma reachable_one_identity_per_phone_witness :
  (List.length (identities_of Demo.phone Demo.registered) <= 1)%nat.
Proof.
  apply (@reachable_one_identity_per_phone AsciiCase Demo.registered).
  exact demo_registered_reachable.
Defined.

(** X7. Every identity in a store the endpoints produce went through the
    gates: its affirmation is true, the KYC rule engine passes its
    country, name and email as stored, and its phone is normalised. *)
Theorem reachable_identities_admitted {unicode : UnicodeCase}
    (st : Store) :
  reachable st -> Forall admitted (identity st).
Proof.
  intros Hr. pattern st. revert st Hr. apply reachable_ind_step.
  - constructor.
  - intros st st' _ IH Hstep. destruct Hstep as
      [st st' ? ? ? ? H|st st' ? ? ? H|st st' payload ? ? H].
    + apply start_otp_store in H. now subst st'.
    + now apply verify_otp_store in H as [->|(rec & _ & _ & ->)].
    + apply register_identity_store in H
        as [->|[((_ & Hf & Hk) & ex & rest & _ & ->)
               |((_ & Hf & Hk) & _ & ->)]].
      * exact IH.
      * cbn [identity set_identity]. apply update_one_Forall; auto.
        intros d. now apply set_profile_admitted.
      * cbn [identity insert_identity]. apply Forall_app. split; auto.
        repeat constructor; cbn; auto. apply normalize_phone_twice.
Qed.

Lemma reachable_identities_admitted_witness :
  Forall (@admitted AsciiCase) (identity Demo.registered).
Proof.
  apply (@reachable_identities_admitted AsciiCase Demo.registered).
  exact demo_registered_reachable.
Defined.

(** X8. Every identity in a store the endpoints produce has, in that
    store, a verified session of its phone: sessions are never removed
    and never unverified. *)
Theorem reachable_identity_has_verified_session {unicode : UnicodeCase}
    (st : Store) :
  reachable st ->
  forall d, In d (identity st) ->
  exists s, In s (otpsession st)
            /\ otp_phone s = id_phone d
            /\ otp_verified s = Some true.
Proof.
  intros Hr. pattern st. revert st Hr. apply reachable_ind_step.
  - intros d [].
  - intros st st' _ IH Hstep. destruct Hstep as
      [st st' ? ? ? ? H|st st' ? ? ? H|st st' payload ? ? H].
    + apply start_otp_store in H. subst st'. cbn [identity otpsession].
      intros d Hd. destruct (IH d Hd) as (s & Hs & Hp & Hv).
      exists s. split; auto. apply in_or_app. now left.
    + apply verify_otp_store in H as [->|(rec & _ & _ & ->)]; [exact IH|].
      cbn [identity otpsession set_otpsession].
      intros d Hd. destruct (IH d Hd) as (s & Hs & Hp & Hv).
      destruct (update_one_In
                  (fun x => Nat.eqb (otp_id x) (otp_id rec))
                  (set_verified now_update) _ _ Hs) as [H|H].
      * now exists s.
      * exists (set_verified now_update s). now repeat split.
    + apply register_identity_store in H
        as [->|[(_ & ex & rest & _ & ->)|((Hv & _) & _ & ->)]].
      * exact IH.
      * cbn [identity otpsession set_identity]. intros d' Hd'.
        apply update_one_In_inv in Hd' as [Hd'|(d & Hd & ->)].
        -- now apply IH.
        -- exact (IH d Hd).
      * cbn [identity otpsession insert_identity]. intros d Hd.
        apply in_app_or in Hd as [Hd|[<-|[]]]; [now apply IH|].
        destruct Hv as (rec & Hl & Hv).
        apply latest_session_Some in Hl as (Hin & Hp & _).
        now exists rec.
Qed.

Lemma reachable_identity_has_verified_session_witness :
  exists s, In s (otpsession Demo.registered)
            /\ otp_phone s = id_phone (Demo.registered_doc "Aicha Kone" None)
            /\ otp_verified s = Some true.
Proof.
  apply (@reachable_identity_has_verified_session AsciiCase
           Demo.registered demo_registered_reachable).
  now left.
Defined.

(** X9. Every session in a store the endpoints produce carries a code,
    an expiry and a verified flag, and a normalised phone: on such a
    store the defaults of [rec.get] in [verify_otp] and
    [register_identity] are never used. *)
Theorem reachable_sessions_complete {unicode : UnicodeCase} (st : Store) :
  reachable st -> Forall complete_session (otpsession st).
Proof.
  intros Hr. pattern st. revert st Hr. apply reachable_ind_step.
  - constructor.
  - intros st st' _ IH Hstep. destruct Hstep as
      [st st' ? ? ? ? H|st st' ? ? ? H|st st' payload ? ? H].
    + apply start_otp_store in H. subst st'. cbn [otpsession].
      apply Forall_app. split; auto.
      repeat constructor; cbn; try discriminate.
      apply normalize_phone_twice.
    + apply verify_otp_store in H as [->|(rec & _ & _ & ->)]; [exact IH|].
      cbn [otpsession set_otpsession]. apply update_one_Forall; auto.
      intros d (H1 & H2 & H3 & _). repeat split; auto. discriminate.
    + now apply register_identity_store in H
        as [->|[(_ & ex & rest & _ & ->)|(_ & _ & ->)]].
Qed.

Lemma reachable_sessions_complete_witness :
  Forall complete_session (otpsession Demo.registered).
Proof.
  apply (@reachable_sessions_complete AsciiCase Demo.registered).
  exact demo_registered_reachable.
Defined.

(** X10. No call deletes or rewinds anything: after any call of
    [start_otp], [verify_otp] or [register_identity], every session is
    still there with its identifier, phone, code, expiry and creation
    time, verified if it was; every identity is still there with its
    identifier, phone and creation time; and neither collection has
    shrunk. *)
Theorem step_keeps_history {unicode : UnicodeCase} (st st' : Store) :
  step st st' ->
  (forall s, In s (otpsession st) ->
     exists s', In s' (otpsession st') /\ session_evolves s s')
  /\ (forall d, In d (identity st) ->
        exists d', In d' (identity st')
                   /\ id_id d' = id_id d
                   /\ id_phone d' = id_phone d
                   /\ id_created_at d' = id_created_at d)
  /\ (List.length (otpsession st) <= List.length (otpsession st'))%nat
  /\ (List.length (identity st) <= List.length (identity st'))%nat.
Proof.
  assert (Hsame : forall s, session_evolves s s) by (intros s; now repeat split).
  assert (Hkeep : forall a : Store,
            (forall s, In s (otpsession a) ->
               exists s', In s' (otpsession a) /\ session_evolves s s')
            /\ (forall d, In d (identity a) ->
                  exists d', In d' (identity a)
                             /\ id_id d' = id_id d
                             /\ id_phone d' = id_phone d
                             /\ id_created_at d' = id_created_at d)
            /\ (List.length (otpsession a) <= List.length (otpsession a))%nat
            /\ (List.length (identity a) <= List.length (identity a))%nat).
  { intros a. repeat split; auto; intros x Hx; exists x; auto. }
  intros Hstep. destruct Hstep as
    [st st' ? ? ? ? H|st st' ? ? now_update H|st st' payload now_update ? H].
  - apply start_otp_store in H. subst st'. cbn [otpsession identity].
    destruct (Hkeep st) as (_ & Hid & _). repeat split; auto.
    + intros s Hs. exists s. split; auto. apply in_or_app. now left.
    + rewrite length_app. lia.
  - apply verify_otp_store in H as [->|(rec & _ & _ & ->)]; [apply Hkeep|].
    cbn [otpsession identity set_otpsession].
    destruct (Hkeep st) as (_ & Hid & _). repeat split; auto.
    + intros s Hs.
      destruct (update_one_In
                  (fun x => Nat.eqb (otp_id x) (otp_id rec))
                  (set_verified now_update) _ _ Hs) as [Hin|Hin].
      * now exists s.
      * exists (set_verified now_update s). now repeat split.
    + rewrite update_one_length. lia.
  - apply register_identity_store in H
      as [->|[(_ & ex & rest & _ & ->)|(_ & _ & ->)]]; [apply Hkeep| |].
    + cbn [otpsession identity set_identity].
      destruct (Hkeep st) as (Hs & _). repeat split; auto.
      * intros d Hd.
        destruct (update_one_In
                    (fun x => Nat.eqb (id_id x) (id_id ex))
                    (set_profile payload now_update) _ _ Hd) as [Hin|Hin].
        -- now exists d.
        -- exists (set_profile payload now_update d). now repeat split.
      * rewrite update_one_length. lia.
    + cbn [otpsession identity insert_identity].
      destruct (Hkeep st) as (Hs & _). repeat split; auto.
      * intros d Hd. exists d. split; auto. apply in_or_app. now left.
      * rewrite length_app. lia.
Qed.

(** The verification of the spec's example. *)
Lemma step_keeps_history_witness :
  exists s', In s' (otpsession Demo.verified)
             /\ session_evolves (Demo.session false None) s'.
Proof.
  apply (proj1 (@step_keeps_history AsciiCase Demo.started Demo.verified
           (@step_verify AsciiCase Demo.started Demo.verified
              Demo.good_code 60000000%Z 60000000%Z eq_refl))).
  now left.
Defined.

(** X11. What each endpoint leaves alone.  [start_otp] never fails on an
    available store and does not touch the identities; [verify_otp]
    touches no identity, adds no session, and leaves the whole store as
    it was when it fails; [register_identity] does not touch the
    sessions; and with no database each of the four fails with 500
    "Database not available". *)
Theorem endpoints_frame {unicode : UnicodeCase} (st : Store) :
  (forall payload randint now now_insert,
     exists st' resp,
       start_otp (Some st) payload randint now now_insert
       = (Some st', inr resp)
       /\ identity st' = identity st)
  /\ (forall payload now now_update,
        exists st',
          fst (verify_otp (Some st) payload now now_update) = Some st'
          /\ identity st' = identity st
          /\ next_oid st' = next_oid st
          /\ List.length (otpsession st') = List.length (otpsession st)
          /\ (forall e,
                snd (verify_otp (Some st) payload now now_update) = inl e ->
                st' = st))
  /\ (forall payload now_update now_insert,
        exists st',
          fst (register_identity (Some st) payload now_update now_insert)
          = Some st'
          /\ otpsession st' = otpsession st)
  /\ (forall sp vp rp phone r t1 t2,
        start_otp None sp r t1 t2 = (None, inl StoreUnavailable)
        /\ verify_otp None vp t1 t2 = (None, inl StoreUnavailable)
        /\ register_identity None rp t1 t2 = (None, inl StoreUnavailable)
        /\ get_identity None phone = (None, inl StoreUnavailable)).
Proof.
  split; [|split; [|split]].
  - intros. rewrite start_otp_run. cbv zeta. eauto.
  - intros payload now now_update. rewrite verify_otp_run. cbv zeta.
    destruct (latest_session _ st) as [rec|]; [|now exists st].
    destruct (now >? get_expires_at rec now)%Z; [now exists st|].
    destruct (code_differs _ rec); [now exists st|].
    eexists. cbn [fst snd]. split; [reflexivity|].
    cbn [identity next_oid otpsession set_otpsession].
    rewrite update_one_length. repeat split; auto. discriminate.
  - intros payload now_update now_insert.
    destruct (register_identity (Some st) payload now_update now_insert)
      as [[st'|] r] eqn:E.
    + exists st'. split; auto.
      assert (H : fst (register_identity (Some st) payload now_update
                         now_insert) = Some st') by now rewrite E.
      now apply register_identity_store in H
        as [->|[(_ & ex & rest & _ & ->)|(_ & _ & ->)]].
    + rewrite register_identity_run in E. cbv zeta in E.
      repeat match type of E with
             | (if ?c then _ else _) = _ => destruct c
             | match ?c with _ => _ end = _ => destruct c
             end; discriminate E.
  - intros. repeat split.
Qed.

(* ================================================================== *)
(** ** One phone at a time *)
(* ================================================================== *)

Section Isolation.

Context {unicode : UnicodeCase}.

Lemma sessions_of_update (q : str) (st : Store) (rec : OtpSessionDoc)
    (t : datetime) :
  NoDup (List.map otp_id (otpsession st)) ->
  In rec (otpsession st) ->
  otp_phone rec <> q ->
  sessions_of q
    (set_otpsession
       (update_one (fun d => Nat.eqb (otp_id d) (otp_id rec))
                   (set_verified t) (otpsession st)) st)
  = sessions_of q st.
Proof.
  intros Hnd Hin Hq. unfold sessions_of.
  cbn [otpsession set_otpsession].
  rewrite update_one_by_id by exact Hnd. unfold update_by_id.
  apply filter_map_fixed.
  - intros d _. now destruct (Nat.eqb (otp_id d) (otp_id rec)).
  - intros d Hd Hp. destruct (Nat.eqb_spec (otp_id d) (otp_id rec)) as [E|];
      [|reflexivity].
    apply (unique_id otp_id _ _ _ Hnd Hd Hin) in E. subst d.
    apply PyStrFacts.eqb_eq in Hp. now destruct Hq.
Qed.

Lemma identities_of_update_other (q : str) (st : Store)
    (payload : RegisterIdentityRequest) (t : datetime)
    (existing : IdentityDoc) :
  NoDup (List.map id_id (identity st)) ->
  In existing (identity st) ->
  id_phone existing <> q ->
  identities_of q
    (set_identity
       (update_one (fun d => Nat.eqb (id_id d) (id_id existing))
                   (set_profile payload t) (identity st)) st)
  = identities_of q st.
Proof.
  intros Hnd Hin Hq. unfold identities_of.
  cbn [identity set_identity].
  rewrite update_one_by_id by exact Hnd. unfold update_by_id.
  apply filter_map_fixed.
  - intros d _. now destruct (Nat.eqb (id_id d) (id_id existing)).
  - intros d Hd Hp.
    destruct (Nat.eqb_spec (id_id d) (id_id existing)) as [E|];
      [|reflexivity].
    apply (unique_id id_id _ _ _ Hnd Hd Hin) in E. subst d.
    apply PyStrFacts.eqb_eq in Hp. now destruct Hq.
Qed.

End Isolation.

(** X12. A call for one phone leaves every other phone alone: on a store
    with unique identifiers, the sessions of a phone [q] are the very
    same after [start_otp] or [verify_otp] for a phone that normalises to
    something else, and the identities of [q] are the very same after
    [register_identity] for such a phone. *)
Theorem other_phones_untouched {unicode : UnicodeCase} (st : Store)
    (q : str) :
  wf st ->
  (forall payload randint now now_insert st',
     normalize_phone (start_phone payload) <> q ->
     fst (start_otp (Some st) payload randint now now_insert) = Some st' ->
     sessions_of q st' = sessions_of q st
     /\ latest_session q st' = latest_session q st)
  /\ (forall payload now now_update st',
        normalize_phone (verify_phone payload) <> q ->
        fst (verify_otp (Some st) payload now now_update) = Some st' ->
        sessions_of q st' = sessions_of q st
        /\ latest_session q st' = latest_session q st)
  /\ (forall payload now_update now_insert st',
        normalize_phone (reg_phone payload) <> q ->
        fst (register_identity (Some st) payload now_update now_insert)
        = Some st' ->
        identities_of q st' = identities_of q st).
Proof.
  intros Hwf.
  assert (Hlatest : forall a b,
            sessions_of q a = sessions_of q b ->
            latest_session q a = latest_session q b).
  { intros a b H. unfold latest_session, get_latest_otp, gets, find.
    unfold sessions_of in H. now rewrite H. }
  split; [|split].
  - intros payload randint now now_insert st' Hq H.
    apply start_otp_store in H. subst st'.
    assert (Hs : sessions_of q
                   {| otpsession :=
                        otpsession st ++
                        [{| otp_id := next_oid st;
                            otp_phone := normalize_phone (start_phone payload);
                            otp_code := Some (format_int (random_randint 100000 999999 randint));
                            otp_expires_at :=
                              Some (now + timedelta_minutes 5)%Z;
                            otp_verified := Some false;
                            otp_created_at := now_insert;
                            otp_updated_at := None |}];
                      identity := identity st;
                      next_oid := S (next_oid st) |}
                 = sessions_of q st).
    { unfold sessions_of. cbn [otpsession]. rewrite filter_app.
      cbn [filter otp_phone].
      apply PyStrFacts.eqb_neq in Hq. rewrite Hq. apply app_nil_r. }
    split; [exact Hs | now apply Hlatest].
  - intros payload now now_update st' Hq H.
    apply verify_otp_store in H as [->|(rec & Hl & _ & ->)]; [now split|].
    apply latest_session_Some in Hl as (Hin & Hp & _).
    assert (Hs : sessions_of q
                   (set_otpsession
                      (update_one (fun d => Nat.eqb (otp_id d) (otp_id rec))
                                  (set_verified now_update) (otpsession st))
                      st)
                 = sessions_of q st).
    { apply sessions_of_update; auto.
      - exact (wf_otp_unique Hwf).
      - now rewrite Hp. }
    split; [exact Hs | now apply Hlatest].
  - intros payload now_update now_insert st' Hq H.
    apply register_identity_store in H
      as [->|[(_ & ex & rest & Hids & ->)|(_ & _ & ->)]]; [reflexivity| |].
    + assert (Hin : In ex (identities_of
                             (normalize_phone (reg_phone payload)) st))
        by (rewrite Hids; now left).
      apply filter_In in Hin as [Hin Hp]. apply PyStrFacts.eqb_eq in Hp.
      apply identities_of_update_other; auto.
      * exact (wf_id_unique Hwf).
      * now rewrite Hp.
    + rewrite identities_of_app. cbn [new_identity id_phone].
      apply PyStrFacts.eqb_neq in Hq. rewrite Hq. apply app_nil_r.
Qed.

(** The verification of the spec's example, seen from another phone. *)
Lemma other_phones_untouched_witness :
  sessions_of (lit "+221770000000") Demo.verified
  = sessions_of (lit "+221770000000") Demo.started
  /\ latest_session (lit "+221770000000") Demo.verified
     = latest_session (lit "+221770000000") Demo.started.
Proof.
  assert (Hwf : wf Demo.started).
  { split; cbn; repeat constructor; intros []. }
  apply (proj1 (proj2 (@other_phones_untouched AsciiCase Demo.started
           (lit "+221770000000") Hwf))
           Demo.good_code 60000000%Z 60000000%Z Demo.verified).
  - intros H. vm_compute in H. discriminate H.
  - reflexivity.
Defined.

(* ================================================================== *)
(** ** Calls in sequence *)
(* ================================================================== *)

Section Flows.

Context {unicode : UnicodeCase}.

(** A document appended with a key above all the others comes first. *)
Lemma sort_desc_snoc_max {D} (key : D -> Z) (l : list D) (d : D) :
  Forall (fun x => (key x < key d)%Z) l ->
  exists rest, sort_desc key (l ++ [d]) = d :: rest.
Proof.
  induction 1 as [|x l Hx Hl [rest IH]]; simpl.
  - now exists [].
  - rewrite IH. cbn [insert_desc].
    destruct (Z.leb_spec (key d) (key x)); [lia|]. eauto.
Qed.

(** A session started after all the others of its phone is the latest. *)
Lemma latest_session_started (st : Store) (phone : str) (randint : Z)
    (now now_insert : datetime) :
  created_before now_insert phone st ->
  latest_session phone (started_store st phone randint now now_insert)
  = Some {| otp_id := next_oid st;
            otp_phone := phone;
            otp_code := Some (format_int (random_randint 100000 999999 randint));
            otp_expires_at := Some (now + timedelta_minutes 5)%Z;
            otp_verified := Some false;
            otp_created_at := now_insert;
            otp_updated_at := None |}.
Proof.
  intros Hb. unfold latest_session, get_latest_otp, gets, find,
    started_store. cbn [otpsession].
  rewrite filter_app. cbn [filter otp_phone].
  rewrite PyStrFacts.eqb_refl.
  destruct (@sort_desc_snoc_max _ otp_created_at
              (filter (fun d => PyStr.eqb (otp_phone d) phone)
                      (otpsession st))
              {| otp_id := next_oid st;
                 otp_phone := phone;
                 otp_code := Some (format_int (random_randint 100000 999999 randint));
                 otp_expires_at := Some (now + timedelta_minutes 5)%Z;
                 otp_verified := Some false;
                 otp_created_at := now_insert;
                 otp_updated_at := None |} Hb) as [rest ->].
  reflexivity.
Qed.

End Flows.

(** X13. The whole flow.  On a store with unique identifiers, when the
    session is started more than a millisecond after every other session
    of the phone, verifying with the code [start_otp] answered, under any
    spelling of the phone and at least a millisecond before five minutes
    have passed since the clock [start_otp] read, answers VERIFIED and
    leaves the phone verified; a registration for that phone that affirms
    and passes the KYC rules then succeeds.  The margins of a millisecond
    make the statement hold also when the stored times are cut to the
    millisecond. *)
Theorem start_verify_register {unicode : UnicodeCase} (st : Store)
    (sp : StartOtpRequest) (rng : Z) (now now_insert : datetime)
    (vp : VerifyOtpRequest) (now2 now_update : datetime) :
  let phone := normalize_phone (start_phone sp) in
  wf st ->
  created_before (now_insert - one_millisecond) phone st ->
  normalize_phone (verify_phone vp) = phone ->
  verify_code vp = format_int (random_randint 100000 999999 rng) ->
  (now2 + one_millisecond <= now + timedelta_minutes 5)%Z ->
  exists st1 st2 resp,
    start_otp (Some st) sp rng now now_insert = (Some st1, inr resp)
    /\ debug_code resp = verify_code vp
    /\ verify_otp (Some st1) vp now2 now_update
       = (Some st2,
          inr {| status := lit "VERIFIED"; resp_phone := phone |})
    /\ phone_verified phone st2
    /\ (forall rp t1 t2,
          normalize_phone (reg_phone rp) = phone ->
          reg_faith_affirmation rp = true ->
          pass (kyc_rule_engine (reg_country rp) (reg_name rp)
                                (reg_email rp)) = true ->
          snd (register_identity (Some st2) rp t1 t2) = inr (CREATED phone)
          \/ snd (register_identity (Some st2) rp t1 t2)
             = inr (UPDATED phone)).
Proof.
  intros phone Hwf Hb0 Hvp Hcode Hnow0.
  assert (Hb : created_before now_insert phone st).
  { unfold created_before in *. eapply Forall_impl; [|exact Hb0].
    unfold one_millisecond. cbn beta. intros; lia. }
  assert (Hnow : (now2 <= now + timedelta_minutes 5)%Z)
    by (unfold one_millisecond in Hnow0; lia).
  set (randint := rng) in *.
  set (new := {| otp_id := next_oid st;
                 otp_phone := phone;
                 otp_code :=
                   Some (format_int (random_randint 100000 999999 randint));
                 otp_expires_at := Some (now + timedelta_minutes 5)%Z;
                 otp_verified := Some false;
                 otp_created_at := now_insert;
                 otp_updated_at := None |}).
  set (st1 := started_store st phone randint now now_insert).
  assert (Hstart : start_otp (Some st) sp randint now now_insert
                   = (Some st1,
                      inr {| start_status := lit "OTP_SENT";
                             start_resp_phone := phone;
                             expires_in_sec := 300;
                             debug_code :=
                               format_int
                                 (random_randint 100000 999999 randint) |}))
    by apply start_otp_run.
  assert (Hwf1 : wf st1).
  { eapply wf_start_otp; [exact Hwf|]. now rewrite Hstart. }
  assert (Hl1 : latest_session phone st1 = Some new)
    by now apply latest_session_started.
  set (f := fun d => if Nat.eqb (otp_id d) (otp_id new)
                     then set_verified now_update d else d).
  set (st2 := set_otpsession (List.map f (otpsession st1)) st1).
  assert (Hverify : verify_otp (Some st1) vp now2 now_update
                    = (Some st2,
                       inr {| status := lit "VERIFIED";
                              resp_phone := phone |})).
  { rewrite verify_otp_run. cbv zeta. rewrite Hvp, Hl1.
    change (get_expires_at new now2) with (now + timedelta_minutes 5)%Z.
    rewrite (not_gt_false Hnow).
    rewrite code_differs_false by (cbn; now rewrite Hcode).
    now rewrite update_one_by_id by exact (wf_otp_unique Hwf1). }
  assert (Hv2 : phone_verified phone st2).
  { exists (set_verified now_update new). split; [|reflexivity].
    unfold st2. rewrite latest_session_map.
    - rewrite Hl1. cbn [option_map]. unfold f. now rewrite Nat.eqb_refl.
    - intros d. unfold f. now destruct (Nat.eqb _ _).
    - intros d. unfold f. now destruct (Nat.eqb _ _). }
  exists st1, st2. eexists. split; [exact Hstart|].
  split; [now rewrite Hcode|]. split; [exact Hverify|].
  split; [exact Hv2|].
  intros rp t1 t2 Hrp Hf Hk. rewrite <- Hrp in Hv2.
  rewrite register_identity_write by assumption. rewrite Hrp.
  destruct (find_one _ (identity st2)); auto.
Qed.

(** The spec's example, from the empty store, with the phone spelled
    with spaces at the verification. *)
Lemma start_verify_register_witness :
  exists st1 st2 resp,
    start_otp (Some empty_store) {| start_phone := Demo.phone |}
              482913 0 0
    = (Some st1, inr resp)
    /\ debug_code resp = verify_code Demo.good_code
    /\ verify_otp (Some st1) Demo.good_code 60000000 60000000
       = (Some st2,
          inr {| status := lit "VERIFIED"; resp_phone := Demo.phone |})
    /\ phone_verified Demo.phone st2
    /\ (forall rp t1 t2,
          normalize_phone (reg_phone rp) = Demo.phone ->
          reg_faith_affirmation rp = true ->
          pass (@kyc_rule_engine AsciiCase (reg_country rp) (reg_name rp)
                                 (reg_email rp)) = true ->
          snd (@register_identity AsciiCase (Some st2) rp t1 t2)
          = inr (CREATED Demo.phone)
          \/ snd (@register_identity AsciiCase (Some st2) rp t1 t2)
             = inr (UPDATED Demo.phone)).
Proof.
  apply (@start_verify_register AsciiCase empty_store
           {| start_phone := Demo.phone |} 482913%Z 0%Z 0%Z
           Demo.good_code 60000000%Z 60000000%Z).
  - exact wf_empty_store.
  - constructor.
  - reflexivity.
  - reflexivity.
  - vm_compute. discriminate.
Defined.



(* ================================================================== *)
(** ** Status codes *)
(* ================================================================== *)

(** X15. On an available store no identity endpoint answers 500:
    [start_otp] does not fail; [verify_otp] fails with 404 exactly when
    the phone has no session and with 400 otherwise; [register_identity]
    fails only with 400; [get_identity] fails only with 404. *)
Theorem failure_statuses {unicode : UnicodeCase} (st : Store) :
  (forall sp randint t1 t2,
     failure_status (snd (start_otp (Some st) sp randint t1 t2)) = None)
  /\ (forall vp t1 t2,
        let r := snd (verify_otp (Some st) vp t1 t2) in
        (failure_status r = Some 404%Z
         <-> latest_session (normalize_phone (verify_phone vp)) st = None)
        /\ (failure_status r = None \/ failure_status r = Some 404%Z
            \/ failure_status r = Some 400%Z))
  /\ (forall rp t1 t2,
        let r := snd (register_identity (Some st) rp t1 t2) in
        failure_status r = None \/ failure_status r = Some 400%Z)
  /\ (forall phone,
        let r := snd (get_identity (Some st) phone) in
        failure_status r = None \/ failure_status r = Some 404%Z).
Proof.
  split; [|split; [|split]].
  - intros. now rewrite start_otp_run.
  - intros vp t1 t2. cbv zeta. rewrite verify_otp_run. cbv zeta.
    destruct (latest_session _ st) as [rec|].
    + destruct (t1 >? get_expires_at rec t1)%Z;
        [|destruct (code_differs _ rec)]; cbn; split;
        try (split; discriminate); auto.
    + cbn. split; [tauto | auto].
  - intros rp t1 t2. cbv zeta. rewrite register_identity_run. cbv zeta.
    destruct (match latest_session _ st with
              | None => true
              | Some rec => not_verified rec
              end); [cbn; auto|].
    destruct (negb (reg_faith_affirmation rp)); [cbn; auto|].
    destruct (negb (pass _)); [cbn; auto|].
    destruct (find_one _ (identity st)); cbn; auto.
  - intros phone. cbv zeta. rewrite get_identity_run.
    destruct (identities_of _ st); cbn; auto.
Qed.

(* ================================================================== *)
(** ** [test_database] *)
(* ================================================================== *)

(** X16. In the answer of [test_database], [database_url] and
    [database_name] say only whether the environment variables
    DATABASE_URL and DATABASE_NAME are set to a non-empty value: what
    the handle wrote there before ("Configured", the name of the
    database) is overwritten, so the two fields are the same for every
    handle; [backend] is always the same; and [connection_status] is
    "Connected" exactly when there is a handle whose [name] can be
    read. *)
Theorem test_database_environment (db : option DbProbe)
    (getenv : str -> option str) :
  let r := test_database db getenv in
  let set_or_not v :=
    Some (if env_truthy v then CHECK_MARK ++ lit " Set"
          else CROSS_MARK ++ lit " Not Set") in
  backend r = CHECK_MARK ++ lit " Running"
  /\ database_url r = set_or_not (getenv (lit "DATABASE_URL"))
  /\ database_name r = set_or_not (getenv (lit "DATABASE_NAME"))
  /\ (forall db',
        database_url (test_database db' getenv) = database_url r
        /\ database_name (test_database db' getenv) = database_name r)
  /\ (connection_status r = lit "Connected"
      <-> exists d, db = Some d
                    /\ forall e, probe_name d <> AttrRaises e).
Proof.
  cbv zeta. split; [|split; [|split; [|split; [|split]]]].
  - destruct db as [[[| |] []]|]; reflexivity.
  - destruct db as [[[| |] []]|]; reflexivity.
  - destruct db as [[[| |] []]|]; reflexivity.
  - intros db'.
    split; destruct db as [[[| |] []]|]; destruct db' as [[[| |] []]|];
      reflexivity.
  - destruct db as [[[|v|e] l]|]; cbn.
    + intros _. eexists. split; [reflexivity|]. discriminate.
    + intros _. eexists. split; [reflexivity|]. discriminate.
    + destruct l; intros H; vm_compute in H; discriminate H.
    + intros H; vm_compute in H; discriminate H.
  - intros (d & -> & Hn). destruct d as [[|v|e] []]; cbn; auto;
      now destruct (Hn e).
Qed.

(** X17. The answer of [test_database] is bounded: it lists at most ten
    collections, the first ten the database names, and none unless the
    listing succeeded; and the [database] message, which quotes at most
    fifty characters of an error, is never longer than 75 characters and
    never the initial "Not Available". *)
Theorem test_database_bounds (db : option DbProbe)
    (getenv : str -> option str) :
  let r := test_database db getenv in
  (List.length (collections r) <= 10)%nat
  /\ (List.length (database r) <= 75)%nat
  /\ database r <> CROSS_MARK ++ lit " Not Available"
  /\ (collections r = []
      \/ exists d names,
           db = Some d
           /\ probe_list_collection_names d = inr names
           /\ collections r = firstn 10 names)
  /\ (forall d e,
        db = Some d ->
        (forall e', probe_name d <> AttrRaises e') ->
        probe_list_collection_names d = inl e ->
        database r
        = WARNING_SIGN ++ lit "  Connected but Error: " ++ firstn 50 e).
Proof.
  cbv zeta.
  assert (H50 : forall e : str, (List.length (firstn 50 e) <= 50)%nat)
    by (intros e; apply firstn_le_length).
  assert (H10 : forall l : list str, (List.length (firstn 10 l) <= 10)%nat)
    by (intros l; apply firstn_le_length).
  split; [|split; [|split; [|split]]].
  - destruct db as [[[|v|e] [e'|l]]|]; cbn [test_database]; cbn;
      try lia; apply H10.
  - destruct db as [[[|v|e] [e'|l]]|];
      cbn -[firstn]; rewrite ?length_app; cbn -[firstn];
      try lia; try (specialize (H50 e'); lia);
      try (specialize (H50 e); lia).
  - destruct db as [[[|v|e] [e'|l]]|]; cbn -[firstn];
      intros H; try discriminate H; injection H as H; discriminate H.
  - destruct db as [[[|v|e] [e'|l]]|]; cbn -[firstn]; auto;
      right; eexists; eexists; repeat split.
  - intros d e -> Hn Hl. destruct d as [[|v|e0] l]; cbn in Hl; subst l;
      try reflexivity. now destruct (Hn e0).
Qed.

(** A handle whose listing fails with a long message. *)
Lemma test_database_bounds_witness :
  database (test_database
              (Some {| probe_name := AttrValue (lit "identity_db");
                       probe_list_collection_names :=
                         inl (lit "ServerSelectionTimeoutError: localhost:27017: [Errno 111] Connection refused") |})
              (fun _ => None))
  = WARNING_SIGN ++ lit "  Connected but Error: "
    ++ lit "ServerSelectionTimeoutError: localhost:27017: [Err".
Proof.
  apply (proj2 (proj2 (proj2 (proj2 (test_database_bounds
           (Some {| probe_name := AttrValue (lit "identity_db");
                    probe_list_collection_names :=
                      inl (lit "ServerSelectionTimeoutError: localhost:27017: [Errno 111] Connection refused") |})
           (fun _ => None)))))
           {| probe_name := AttrValue (lit "identity_db");
              probe_list_collection_names :=
                inl (lit "ServerSelectionTimeoutError: localhost:27017: [Errno 111] Connection refused") |}
           (lit "ServerSelectionTimeoutError: localhost:27017: [Errno 111] Connection refused")).
  - reflexivity.
  - discriminate.
  - reflexivity.
Defined.
